(** * lantern_pro.go: the Pro command dispatcher of lanternlib

    A shallow embedding of [src/lantern_pro.go] (package [lantern]) and the
    properties of its dispatcher [ProRequest], its nine handlers and the
    direct operation [RemoveDevice].

    The Go code talks to three collaborators that live outside the
    repository: the [Session] object handed in by the caller (an
    interface), the HTTP transport factory [proxied.GetHTTPClient] together
    with the Pro server behind [client.Client], and Stripe's
    [NewIdempotencyKey].  The embedding keeps them abstract: [Session] is a
    type class, the other ones are fields of an environment record [Env].
    Every interaction is appended to a trace, so that the order and the
    number of calls can be stated. *)

From Stdlib Require Import ZArith String Ascii List Bool Arith Lia.
Import ListNotations.

Local Open Scope string_scope.
Local Open Scope list_scope.

(** ** Go values *)

(** A Go [error] value is represented by its message; [None] is [nil]. *)
Definition error := string.

(** Go's [int] and [int64] values are only passed around by this file,
    never computed with; they are integers. *)
Definition int := Z.
Definition int64 := Z.

(** [strings.ToLower], on the ASCII letters (other bytes are kept). *)
Definition lower_ascii (c : ascii) : ascii :=
  let n := nat_of_ascii c in
  if (65 <=? n)%nat && (n <=? 90)%nat then ascii_of_nat (n + 32) else c.

Fixpoint ToLower (s : string) : string :=
  match s with
  | EmptyString => EmptyString
  | String c t => String (lower_ascii c) (ToLower t)
  end.

(** ** Package [client] (pro-server-client): the types the source uses *)

Module client.

Record Auth := mkAuth {
  DeviceID : string;
  ID : int;
  Token : string
}.

Record Device := mkDevice {
  Device_Id : string;
  Device_Name : string
}.

(** [User] embeds [Auth]; only the fields read or written by
    lantern_pro.go are kept. *)
Record User := mkUser {
  User_Auth : Auth;
  Email : string;
  Code : string;
  Referral : string;
  UserStatus : string;
  Expiration : int64;
  Subscription : string;
  ExpireAt : int64;
  Devices : list Device
}.

Record PlanDuration := mkDuration { Years : int }.

(** [Price] is a Go [map[string]int].  The only thing the source does
    with it is [for currency, price = range plan.Price { break }], whose
    iteration order is chosen by the runtime: the list holds the entries
    of the map in the order in which that [range] visits them. *)
Record Plan := mkPlan {
  Plan_Id : string;
  Description : string;
  Price : list (string * int);
  BestValue : bool;
  Duration : PlanDuration
}.

Record Purchase := mkPurchase {
  IdempotencyKey : string;
  StripeToken : string;
  StripeEmail : string;
  Purchase_Plan : string;
  Currency : string
}.

(** [Response] embeds [User]. *)
Record Response := mkResponse {
  Status : string;
  Error : string;
  Response_User : User;
  PubKey : string;
  Plans : list Plan
}.

(** The handle returned by [proxied.GetHTTPClient]. *)
Inductive HTTPClient := httpClient (handle : nat).

(** [*client.Client]: the transport it was built on and its locale. *)
Record Client := mkClient {
  http : HTTPClient;
  locale : string
}.

Definition NewClient (h : HTTPClient) : Client :=
  {| http := h; locale := "" |}.

Definition SetLocale (l : string) (c : Client) : Client :=
  {| http := http c; locale := l |}.

(** The zero value of [User], completed by a composite literal. *)
Definition userOf (a : Auth) : User :=
  {| User_Auth := a; Email := ""; Code := ""; Referral := "";
     UserStatus := ""; Expiration := 0%Z; Subscription := "";
     ExpireAt := 0%Z; Devices := [] |}.

(** [r.user.Code = c] *)
Definition setCode (c : string) (u : User) : User :=
  {| User_Auth := User_Auth u; Email := Email u; Code := c;
     Referral := Referral u; UserStatus := UserStatus u;
     Expiration := Expiration u; Subscription := Subscription u;
     ExpireAt := ExpireAt u; Devices := Devices u |}.

End client.

(** What a method of [client.Client] returns: a pointer to a
    [Response] (nil is [None]) and an [error]. *)
Definition Result : Type := option client.Response * option error.

(** The remote methods of [*client.Client] that the source calls, with
    their arguments. *)
Module Client.

Inductive Call :=
| UserCreate (user : client.User)
| Purchase (user : client.User) (deviceName pubKey : string)
           (purchase : client.Purchase)
| RequestLinkCode (user : client.User) (deviceName : string)
| RedeemLinkCode (user : client.User) (deviceName : string)
| ApplyLinkCode (user : client.User)
| RedeemReferralCode (user : client.User) (referralCode : string)
| CancelSubscription (user : client.User)
| Plans (user : client.User)
| UserData (user : client.User)
| UserLinkRemove (user : client.User) (deviceId : string).

End Client.

(** ** The [Session] interface *)

(** The mutating methods of [Session], as calls. *)
Inductive Mutator :=
| SetToken (token : string)
| SetUserId (id : int)
| SetDeviceCode (code : string) (expiration : int64)
| UserData (status : string) (expiration : int64)
           (subscription email : string)
| SetCode (code : string)
| SetError (command message : string)
| SetStripePubKey (key : string)
| AddPlan (id description currency : string) (bestValue : bool)
          (years price : int)
| AddDevice (id name : string).

(** An implementation of the interface: the accessors, and what a
    mutating call does to the object. *)
Class Session (S : Type) := {
  UserId : S -> int;
  Code : S -> string;
  VerifyCode : S -> string;
  DeviceCode : S -> string;
  DeviceId : S -> string;
  DeviceName : S -> string;
  Locale : S -> string;
  Referral : S -> string;
  Token : S -> string;
  Plan : S -> string;
  StripeToken : S -> string;
  StripeApiKey : S -> string;
  Email : S -> string;
  Currency : S -> string;
  mutate : Mutator -> S -> S
}.

(** The mutators that write one of the identity-affecting fields (user
    id, token, referral code). *)
Definition writes_identity (m : Mutator) : bool :=
  match m with
  | SetUserId _ | SetToken _ | SetCode _ => true
  | _ => false
  end.

(** A reference to the caller's [Session] object.  One dispatch call sees
    one such object, kept in the [World] below; the Go code reaches it
    through the [session] argument and through [r.session]. *)
Inductive SessionRef := theSession.

(** ** The world: the shared [Session] object and the collaborators *)

(** What is observable from outside, in the order it happens. *)
Inductive Event :=
| EvHTTPClient (shouldProxy : bool) (res : client.HTTPClient + error)
| EvKey (key : string)
| EvRemote (c : client.Client) (call : Client.Call) (res : Result)
| EvSession (m : Mutator).

(** The collaborators.  Their answers may change over time: each takes the
    number of interactions that happened before. *)
Record Env := {
  GetHTTPClient : nat -> bool -> client.HTTPClient + error;
  remote : nat -> client.Client -> Client.Call -> Result;
  NewIdempotencyKey : nat -> string
}.

Record World (S : Type) := mkWorld {
  session : S;
  now : nat;
  trace : list Event
}.
Arguments mkWorld {S}.
Arguments session {S}.
Arguments now {S}.
Arguments trace {S}.

(** How a Go function call ends: it returns, or it panics. *)
Inductive Outcome (A : Type) :=
| Returned (a : A)
| Panicked (why : string).
Arguments Returned {A}.
Arguments Panicked {A}.

Definition nil_dereference := "invalid memory address or nil pointer dereference".

Section Program.

Context {S : Type} {SessionS : Session S}.
Variable env : Env.

(** A computation reads and updates the world and ends in an outcome.
    The world after a panic is the world at the panic. *)
Definition M (A : Type) : Type := World S -> Outcome A * World S.

Definition ret {A} (a : A) : M A := fun w => (Returned a, w).

Definition bind {A B} (m : M A) (f : A -> M B) : M B :=
  fun w =>
    match m w with
    | (Returned a, w') => f a w'
    | (Panicked why, w') => (Panicked why, w')
    end.

Definition panic {A} (why : string) : M A := fun w => (Panicked why, w).

Notation "x <- m ;; k" := (bind m (fun x => k))
  (at level 61, m at next level, right associativity).
Notation "' p <- m ;; k" := (bind m (fun x => let 'p := x in k))
  (at level 61, p pattern, m at next level, right associativity).
Notation "m ;;; k" := (bind m (fun _ => k))
  (at level 61, right associativity).

(** [p.f] on a pointer [p]: a nil pointer panics. *)
Definition deref {A} (p : option A) : M A :=
  match p with
  | Some a => ret a
  | None => panic nil_dereference
  end.

(** [session.Getter()] *)
Definition get {A} (_ : SessionRef) (getter : S -> A) : M A :=
  fun w => (Returned (getter (session w)), w).

(** [session.Mutator(args)] *)
Definition call (_ : SessionRef) (m : Mutator) : M unit :=
  fun w =>
    (Returned tt,
     {| session := mutate m (session w);
        now := now w;
        trace := trace w ++ [EvSession m] |}).

(** [proxied.GetHTTPClient(shouldProxy)] *)
Definition proxied_GetHTTPClient (shouldProxy : bool)
  : M (client.HTTPClient + error) :=
  fun w =>
    let res := GetHTTPClient env (now w) shouldProxy in
    (Returned res,
     {| session := session w;
        now := Datatypes.S (now w);
        trace := trace w ++ [EvHTTPClient shouldProxy res] |}).

(** [stripe.NewIdempotencyKey()] *)
Definition stripe_NewIdempotencyKey : M string :=
  fun w =>
    let key := NewIdempotencyKey env (now w) in
    (Returned key,
     {| session := session w;
        now := Datatypes.S (now w);
        trace := trace w ++ [EvKey key] |}).

(** [c.Method(args)] for a remote method of the Pro client. *)
Definition invoke (c : client.Client) (rpc : Client.Call) : M Result :=
  fun w =>
    let res := remote env (now w) c rpc in
    (Returned res,
     {| session := session w;
        now := Datatypes.S (now w);
        trace := trace w ++ [EvRemote c rpc res] |}).

(** [for _, x := range l { body }] *)
Fixpoint range {A} (l : list A) (body : A -> M unit) : M unit :=
  match l with
  | [] => ret tt
  | x :: rest => body x ;;; range rest body
  end.

(** ** The source *)

Record proRequest := mkProRequest {
  proClient : client.Client;
  user : client.User;
  r_session : option SessionRef
}.

Definition proFunc : Type := proRequest -> M Result.

(** [r.session]: calling a method on a nil interface panics. *)
Definition session_of (r : proRequest) : M SessionRef :=
  deref (r_session r).

Definition newRequest (shouldProxy : bool) (session : SessionRef)
  : M (option proRequest * option error) :=
  res <- proxied_GetHTTPClient shouldProxy ;;
  match res with
  | inr err => ret (None, Some err)
  | inl httpClient =>
      deviceId <- get session DeviceId ;;
      userId <- get session UserId ;;
      token <- get session Token ;;
      ret (Some {| proClient := client.NewClient httpClient;
                   user := client.userOf
                             {| client.DeviceID := deviceId;
                                client.ID := userId;
                                client.Token := token |};
                   r_session := None |},
           None)
  end.

Definition newuser (r : proRequest) : M Result :=
  s <- session_of r ;;
  locale <- get s Locale ;;
  let proClient := client.SetLocale locale (proClient r) in
  '(res, err) <- invoke proClient (Client.UserCreate (user r)) ;;
  match err with
  | Some _ => ret (res, err)
  | None =>
      rs <- deref res ;;
      let u := client.Response_User rs in
      call s (SetUserId (client.ID (client.User_Auth u))) ;;;
      call s (SetToken (client.Token (client.User_Auth u))) ;;;
      call s (SetCode (client.Referral u)) ;;;
      ret (res, err)
  end.

Definition purchase (r : proRequest) : M Result :=
  s <- session_of r ;;
  key <- stripe_NewIdempotencyKey ;;
  stripeToken <- get s StripeToken ;;
  email <- get s Email ;;
  plan <- get s Plan ;;
  currency <- get s Currency ;;
  let purchase :=
    {| client.IdempotencyKey := key;
       client.StripeToken := stripeToken;
       client.StripeEmail := email;
       client.Purchase_Plan := plan;
       client.Currency := ToLower currency |} in
  pubKey <- get s StripeApiKey ;;
  deviceName <- get s DeviceName ;;
  invoke (proClient r) (Client.Purchase (user r) deviceName pubKey purchase).

Definition requestcode (r : proRequest) : M Result :=
  s <- session_of r ;;
  deviceName <- get s DeviceName ;;
  '(res, err) <- invoke (proClient r)
                   (Client.RequestLinkCode (user r) deviceName) ;;
  match err with
  | Some _ => ret (res, err)
  | None =>
      rs <- deref res ;;
      let u := client.Response_User rs in
      call s (SetDeviceCode (client.Code u) (client.ExpireAt u)) ;;;
      ret (res, err)
  end.

(** [err != nil || res.Status != "ok"]: the right operand is evaluated,
    and [res] dereferenced, only when [err] is nil. *)
Definition failed (res : option client.Response) (err : option error)
  : M bool :=
  match err with
  | Some _ => ret true
  | None => rs <- deref res ;; ret (negb (client.Status rs =? "ok"))
  end.

Definition redeemcode (r : proRequest) : M Result :=
  s <- session_of r ;;
  code <- get s DeviceCode ;;
  let user := client.setCode code (user r) in
  deviceName <- get s DeviceName ;;
  '(res, err) <- invoke (proClient r)
                   (Client.RedeemLinkCode user deviceName) ;;
  bad <- failed res err ;;
  if bad then ret (res, err)
  else
    rs <- deref res ;;
    let u := client.Response_User rs in
    call s (SetToken (client.Token (client.User_Auth u))) ;;;
    call s (SetUserId (client.ID (client.User_Auth u))) ;;;
    ret (res, err).

Definition signin (r : proRequest) : M Result :=
  s <- session_of r ;;
  code <- get s VerifyCode ;;
  let user := client.setCode code (user r) in
  '(res, err) <- invoke (proClient r) (Client.ApplyLinkCode user) ;;
  ret (res, err).

Definition referral (r : proRequest) : M Result :=
  s <- session_of r ;;
  code <- get s Referral ;;
  invoke (proClient r) (Client.RedeemReferralCode (user r) code).

Definition cancel (r : proRequest) : M Result :=
  invoke (proClient r) (Client.CancelSubscription (user r)).

(** [var currency string; var price int;
     for currency, price = range plan.Price { break }]:
    the first entry visited, or the zero values when there is none. *)
Definition first_entry (price : list (string * int)) : string * int :=
  match price with
  | [] => ("", 0%Z)
  | (currency, price) :: _ => (currency, price)
  end.

Definition plans (r : proRequest) : M Result :=
  '(res, err) <- invoke (proClient r) (Client.Plans (user r)) ;;
  stop <- match err with
          | Some _ => ret true
          | None => rs <- deref res ;;
                    ret (Nat.eqb (length (client.Plans rs)) 0)
          end ;;
  if stop then ret (res, err)
  else
    rs <- deref res ;;
    s <- session_of r ;;
    call s (SetStripePubKey (client.PubKey rs)) ;;;
    range (client.Plans rs) (fun plan =>
      let '(currency, price) := first_entry (client.Price plan) in
      if negb (currency =? "") then
        call s (AddPlan (client.Plan_Id plan) (client.Description plan)
                        currency (client.BestValue plan)
                        (client.Years (client.Duration plan)) price)
      else ret tt) ;;;
    ret (res, err).

Definition userdata (r : proRequest) : M Result :=
  '(res, err) <- invoke (proClient r) (Client.UserData (user r)) ;;
  match err with
  | Some _ => ret (res, err)
  | None =>
      rs <- deref res ;;
      let u := client.Response_User rs in
      s <- session_of r ;;
      range (client.Devices u) (fun device =>
        call s (AddDevice (client.Device_Id device)
                          (client.Device_Name device))) ;;;
      call s (UserData (client.UserStatus u) (client.Expiration u)
                       (client.Subscription u) (client.Email u)) ;;;
      ret (res, err)
  end.

Definition RemoveDevice (shouldProxy : bool) (deviceId : string)
                        (session : SessionRef) : M bool :=
  '(req, err) <- newRequest shouldProxy session ;;
  match err with
  | Some _ => ret false
  | None =>
      req <- deref req ;;
      '(res, err) <- invoke (proClient req)
                       (Client.UserLinkRemove (user req) deviceId) ;;
      bad <- failed res err ;;
      if bad then
        (* log.Errorf(..., err, res.Status) evaluates res.Status *)
        _ <- deref res ;;
        ret false
      else ret true
  end.

(** The map literal of [ProRequest], in the order it is written. *)
Definition commands : list (string * proFunc) :=
  [ ("newuser", newuser);
    ("purchase", purchase);
    ("plans", plans);
    ("signin", signin);
    ("redeemcode", redeemcode);
    ("requestcode", requestcode);
    ("userdata", userdata);
    ("referral", referral);
    ("cancel", cancel) ].

(** [m[key]]: the value stored under [key]; for a missing key Go gives
    the zero value, which for a function type is the nil function. *)
Fixpoint lookup (m : list (string * proFunc)) (key : string)
  : option proFunc :=
  match m with
  | [] => None
  | (k, f) :: rest => if k =? key then Some f else lookup rest key
  end.

Definition ProRequest (shouldProxy : bool) (command : string)
                      (session : SessionRef) : M bool :=
  '(req, err) <- newRequest shouldProxy session ;;
  match err with
  | Some _ => ret false
  | None =>
      req <- deref req ;;
      let req := {| proClient := proClient req; user := user req;
                    r_session := Some session |} in
      locale <- get session Locale ;;
      let req := {| proClient := client.SetLocale locale (proClient req);
                    user := user req; r_session := r_session req |} in
      (* commands[command](req): calling the nil function panics *)
      handler <- deref (lookup commands command) ;;
      '(res, err) <- handler req ;;
      bad <- failed res err ;;
      if bad then
        match res with
        | Some rs => call session (SetError command (client.Error rs)) ;;;
                     ret false
        | None => ret false
        end
      else ret true
  end.

End Program.

Arguments M S : clear implicits.
Arguments proRequest : clear implicits.
Arguments proFunc S : clear implicits.

(** ** An in-memory [Session]

    The simplest implementation of the interface: every accessor reads a
    field, every setter overwrites its fields (last write wins), the two
    [Add] methods append at the end, and [SetError] fills the error slot. *)

Record Preferences := mkPreferences {
  p_verifyCode : string;
  p_deviceId : string;
  p_deviceName : string;
  p_locale : string;
  p_referral : string;
  p_plan : string;
  p_stripeToken : string;
  p_stripeApiKey : string;
  p_currency : string
}.

Record MemSession := mkMemSession {
  m_prefs : Preferences;
  m_userId : int;
  m_token : string;
  m_code : string;
  m_deviceCode : string * int64;
  m_email : string;
  m_account : string * int64 * string;
  m_error : option (string * string);
  m_stripePubKey : string;
  m_plans : list (string * string * string * bool * int * int);
  m_devices : list (string * string)
}.

Definition mem_mutate (m : Mutator) (s : MemSession) : MemSession :=
  let 'mkMemSession prefs userId token code deviceCode email account
                    err pubKey plans devices := s in
  match m with
  | SetToken t =>
      mkMemSession prefs userId t code deviceCode email account
                   err pubKey plans devices
  | SetUserId id =>
      mkMemSession prefs id token code deviceCode email account
                   err pubKey plans devices
  | SetDeviceCode c e =>
      mkMemSession prefs userId token code (c, e) email account
                   err pubKey plans devices
  | UserData status expiration subscription mail =>
      mkMemSession prefs userId token code deviceCode mail
                   (status, expiration, subscription)
                   err pubKey plans devices
  | SetCode c =>
      mkMemSession prefs userId token c deviceCode email account
                   err pubKey plans devices
  | SetError command message =>
      mkMemSession prefs userId token code deviceCode email account
                   (Some (command, message)) pubKey plans devices
  | SetStripePubKey k =>
      mkMemSession prefs userId token code deviceCode email account
                   err k plans devices
  | AddPlan id description currency bestValue years price =>
      mkMemSession prefs userId token code deviceCode email account
                   err pubKey
                   (plans ++ [(id, description, currency, bestValue,
                               years, price)])
                   devices
  | AddDevice id name =>
      mkMemSession prefs userId token code deviceCode email account
                   err pubKey plans (devices ++ [(id, name)])
  end.

#[export] Instance MemSession_Session : Session MemSession := {
  UserId := m_userId;
  Code := m_code;
  VerifyCode s := p_verifyCode (m_prefs s);
  DeviceCode s := fst (m_deviceCode s);
  DeviceId s := p_deviceId (m_prefs s);
  DeviceName s := p_deviceName (m_prefs s);
  Locale s := p_locale (m_prefs s);
  Referral s := p_referral (m_prefs s);
  Token := m_token;
  Plan s := p_plan (m_prefs s);
  StripeToken s := p_stripeToken (m_prefs s);
  StripeApiKey s := p_stripeApiKey (m_prefs s);
  Email := m_email;
  Currency s := p_currency (m_prefs s);
  mutate := mem_mutate
}.

(** ** Reading a trace *)

(** The events of a run from [w] to [w']: what was appended to the trace. *)
Definition events_of {S} (w w' : World S) : list Event :=
  skipn (length (trace w)) (trace w').

(** The [Session] mutators invoked, in order. *)
Fixpoint mutators (t : list Event) : list Mutator :=
  match t with
  | [] => []
  | EvSession m :: rest => m :: mutators rest
  | _ :: rest => mutators rest
  end.

(** The remote calls made, in order, with what they returned. *)
Fixpoint remote_calls (t : list Event) : list (Client.Call * Result) :=
  match t with
  | [] => []
  | EvRemote _ rpc res :: rest => (rpc, res) :: remote_calls rest
  | _ :: rest => remote_calls rest
  end.

(** The idempotency key carried by a remote call. *)
Definition call_key (rpc : Client.Call) : list string :=
  match rpc with
  | Client.Purchase _ _ _ p => [client.IdempotencyKey p]
  | _ => []
  end.

(** The idempotency keys attached to the outbound purchase requests. *)
Definition purchase_key (e : Event) : list string :=
  match e with
  | EvRemote _ rpc _ => call_key rpc
  | _ => []
  end.

Definition purchase_keys (t : list Event) : list string :=
  flat_map purchase_key t.

(** The object after a sequence of mutating calls. *)
Definition apply_all {S} `{Session S} (ms : list Mutator) (s : S) : S :=
  fold_left (fun s m => mutate m s) ms s.

Definition status_ok (res : option client.Response) : Prop :=
  exists rs, res = Some rs /\ client.Status rs = "ok".

Definition command_names : list string :=
  [ "newuser"; "purchase"; "plans"; "signin"; "redeemcode"; "requestcode";
    "userdata"; "referral"; "cancel" ].

(** A process lifetime, seen from the caller: the calls of the two entry
    points, one after the other; a panic ends the process. *)
Inductive Entry :=
| CallProRequest (shouldProxy : bool) (command : string)
| CallRemoveDevice (shouldProxy : bool) (deviceId : string).

Section Lifetime.

Context {S : Type} {SessionS : Session S}.
Variable env : Env.

Definition enter (e : Entry) : M S bool :=
  match e with
  | CallProRequest shouldProxy command =>
      ProRequest env shouldProxy command theSession
  | CallRemoveDevice shouldProxy deviceId =>
      RemoveDevice env shouldProxy deviceId theSession
  end.

Fixpoint lifetime (es : list Entry) : M S unit :=
  match es with
  | [] => ret tt
  | e :: rest => bind (enter e) (fun _ => lifetime rest)
  end.

End Lifetime.

(** ** What a run looks like *)

Section Runs.

Context {S : Type} {SessionS : Session S}.
Variable env : Env.

(** The events before the remote call of a handler started at time [t]:
    none, or the draw of the idempotency key that the call carries. *)
Definition prelude (t : nat) (pre : list Event) (rpc : Client.Call)
  : Prop :=
  (pre = [] /\ call_key rpc = []) \/
  (pre = [EvKey (NewIdempotencyKey env t)] /\
   call_key rpc = [NewIdempotencyKey env t]).

(** The world after a run that made the events [pre], one remote call
    and the mutating calls [ms]. *)
Definition after (w : World S) (pre : list Event) (c : client.Client)
    (rpc : Client.Call) (res : Result) (ms : list Mutator) : World S :=
  {| session := apply_all ms (session w);
     now := now w + length pre + 1;
     trace := trace w ++ pre ++ EvRemote c rpc res :: map EvSession ms |}.

(** The runs of a handler from [w]. *)
Inductive handled (w : World S) : Outcome Result * World S -> Prop :=
| handled_error pre c rpc res e :
    prelude (now w) pre rpc ->
    handled w (Returned (res, Some e), after w pre c rpc (res, Some e) [])
| handled_response pre c rpc rs ms :
    prelude (now w) pre rpc ->
    handled w (Returned (Some rs, None),
               after w pre c rpc (Some rs, None) ms)
| handled_nothing pre c rpc out :
    prelude (now w) pre rpc ->
    out = Panicked nil_dereference \/ out = Returned (None, None) ->
    handled w (out, after w pre c rpc (None, None) []).

(** The world after the transport factory answered. *)
Definition connected (w : World S) (shouldProxy : bool)
    (res : client.HTTPClient + error) : World S :=
  {| session := session w;
     now := Datatypes.S (now w);
     trace := trace w ++ [EvHTTPClient shouldProxy res] |}.

(** The runs of [ProRequest] for a registered command. *)
Inductive dispatched (shouldProxy : bool) (command : string)
    (w : World S) : Outcome bool * World S -> Prop :=
| dispatched_no_client e :
    GetHTTPClient env (now w) shouldProxy = inr e ->
    dispatched shouldProxy command w
      (Returned false, connected w shouldProxy (inr e))
| dispatched_ok h pre c rpc rs ms :
    GetHTTPClient env (now w) shouldProxy = inl h ->
    prelude (Datatypes.S (now w)) pre rpc ->
    client.Status rs = "ok" ->
    dispatched shouldProxy command w
      (Returned true,
       after (connected w shouldProxy (inl h)) pre c rpc
             (Some rs, None) ms)
| dispatched_failed h pre c rpc rs err ms :
    GetHTTPClient env (now w) shouldProxy = inl h ->
    prelude (Datatypes.S (now w)) pre rpc ->
    err <> None \/ client.Status rs <> "ok" ->
    (err <> None -> ms = []) ->
    dispatched shouldProxy command w
      (Returned false,
       after (connected w shouldProxy (inl h)) pre c rpc
             (Some rs, err)
             (ms ++ [SetError command (client.Error rs)]))
| dispatched_no_response h pre c rpc e :
    GetHTTPClient env (now w) shouldProxy = inl h ->
    prelude (Datatypes.S (now w)) pre rpc ->
    dispatched shouldProxy command w
      (Returned false,
       after (connected w shouldProxy (inl h)) pre c rpc
             (None, Some e) [])
| dispatched_fault h pre c rpc :
    GetHTTPClient env (now w) shouldProxy = inl h ->
    prelude (Datatypes.S (now w)) pre rpc ->
    dispatched shouldProxy command w
      (Panicked nil_dereference,
       after (connected w shouldProxy (inl h)) pre c rpc
             (None, None) []).

End Runs.

(** ** Vocabulary of the properties *)

(** The mutating calls that the body of the loop of [plans] makes for one
    plan. *)
Definition plan_calls (plan : client.Plan) : list Mutator :=
  let '(currency, price) := first_entry (client.Price plan) in
  if negb (currency =? "") then
    [AddPlan (client.Plan_Id plan) (client.Description plan) currency
             (client.BestValue plan) (client.Years (client.Duration plan))
             price]
  else [].

(** The mutating call that the body of the loop of [userdata] makes for
    one device. *)
Definition device_call (device : client.Device) : Mutator :=
  AddDevice (client.Device_Id device) (client.Device_Name device).

(** The bulk update of [userdata]. *)
Definition bulk_update (u : client.User) : Mutator :=
  UserData (client.UserStatus u) (client.Expiration u)
           (client.Subscription u) (client.Email u).

(** The mutating calls of [plans] for a response that came without an
    error. *)
Definition plans_calls (rs : client.Response) : list Mutator :=
  match client.Plans rs with
  | [] => []
  | ps => SetStripePubKey (client.PubKey rs) :: flat_map plan_calls ps
  end.

(** The mutating calls of [userdata] for a response that came without an
    error. *)
Definition userdata_calls (rs : client.Response) : list Mutator :=
  map device_call (client.Devices (client.Response_User rs))
  ++ [bulk_update (client.Response_User rs)].

(** The outcome of a handler that dereferences the response when there
    is no error. *)
Definition handler_outcome (res : Result) : Outcome Result :=
  match res with
  | (None, None) => Panicked nil_dereference
  | _ => Returned res
  end.

(** The mutating calls of [newuser], [plans] and [userdata] for what the
    remote call returned. *)
Definition newuser_calls (res : Result) : list Mutator :=
  match res with
  | (Some rs, None) =>
      let u := client.Response_User rs in
      [ SetUserId (client.ID (client.User_Auth u));
        SetToken (client.Token (client.User_Auth u));
        SetCode (client.Referral u) ]
  | _ => []
  end.

Definition plans_writes (res : Result) : list Mutator :=
  match res with
  | (Some rs, None) => plans_calls rs
  | _ => []
  end.

Definition userdata_writes (res : Result) : list Mutator :=
  match res with
  | (Some rs, None) => userdata_calls rs
  | _ => []
  end.

(** The success test of [ProRequest] on what the handler returned. *)
Definition verdict (res : Result) : Outcome bool :=
  match res with
  | (Some rs, None) => Returned (client.Status rs =? "ok")
  | (_, Some _) => Returned false
  | (None, None) => Panicked nil_dereference
  end.

(** The mutating calls of [ProRequest] itself, after the handler. *)
Definition error_calls (command : string) (res : Result) : list Mutator :=
  match res with
  | (Some rs, None) =>
      if client.Status rs =? "ok" then []
      else [SetError command (client.Error rs)]
  | (Some rs, Some _) => [SetError command (client.Error rs)]
  | (None, _) => []
  end.

(** The plan records that [plans] appends for one plan: none for an empty
    currency/price mapping, one for the pair that the iteration visits
    first when that pair names a currency, none when the currency of that
    pair is the empty string. *)
Inductive appended_for (plan : client.Plan) : list Mutator -> Prop :=
| appended_none_empty :
    client.Price plan = [] -> appended_for plan []
| appended_none_unnamed price rest :
    client.Price plan = ("", price) :: rest -> appended_for plan []
| appended_one currency price rest :
    client.Price plan = (currency, price) :: rest ->
    currency <> "" ->
    In (currency, price) (client.Price plan) ->
    appended_for plan
      [AddPlan (client.Plan_Id plan) (client.Description plan) currency
               (client.BestValue plan)
               (client.Years (client.Duration plan)) price].

(** The mutators that write the token or the user id. *)
Definition writes_token_or_id (m : Mutator) : bool :=
  match m with
  | SetToken _ | SetUserId _ => true
  | _ => false
  end.

(** The calls of append-device, and the calls of the bulk update. *)
Definition is_AddDevice (m : Mutator) : bool :=
  match m with
  | AddDevice _ _ => true
  | _ => false
  end.

Definition is_UserData (m : Mutator) : bool :=
  match m with
  | UserData _ _ _ _ => true
  | _ => false
  end.

(** The keys of the outbound purchase requests among the events [d] of a
    run from [w] to [w'] are the keys drawn at the times [ts], all within
    the run. *)
Definition keys_drawn (env : Env) {S} (w w' : World S) (d : list Event)
    (ts : list nat) : Prop :=
  trace w' = trace w ++ d /\
  purchase_keys d = map (NewIdempotencyKey env) ts /\
  NoDup ts /\
  Forall (fun t => now w <= t < now w') ts /\
  now w <= now w'.

(** The request context that [ProRequest] hands to the handler, once the
    transport client [h] is built. *)
Definition dispatch_request {S} `{Session S} (w : World S)
    (h : client.HTTPClient) : proRequest :=
  {| proClient := client.SetLocale (Locale (session w)) (client.NewClient h);
     user := client.userOf
               {| client.DeviceID := DeviceId (session w);
                  client.ID := UserId (session w);
                  client.Token := Token (session w) |};
     r_session := Some theSession |}.

(** ** Sample collaborators *)

(** A key generator that never repeats itself: the [n]-th key is [n]
    strokes. *)
Fixpoint strokes (n : nat) : string :=
  match n with
  | 0 => ""
  | Datatypes.S k => String "|" (strokes k)
  end.

(** Collaborators that always give the same answers. *)
Definition steady (transport : client.HTTPClient + error) (answer : Result)
  : Env :=
  {| GetHTTPClient := fun _ _ => transport;
     remote := fun _ _ _ => answer;
     NewIdempotencyKey := strokes |}.

Definition online : client.HTTPClient + error := inl (client.httpClient 0).

Definition sample_prefs : Preferences :=
  {| p_verifyCode := "1234"; p_deviceId := "d1"; p_deviceName := "phone";
     p_locale := "en_US"; p_referral := "REF"; p_plan := "1y-usd";
     p_stripeToken := "tok_visa"; p_stripeApiKey := "pk_live";
     p_currency := "USD" |}.

Definition sample_session : MemSession :=
  {| m_prefs := sample_prefs; m_userId := 7%Z; m_token := "old-token";
     m_code := "old-code"; m_deviceCode := ("LINK", 0%Z); m_email := "a@b.c";
     m_account := ("", 0%Z, ""); m_error := None; m_stripePubKey := "";
     m_plans := []; m_devices := [] |}.

Definition sample_world : World MemSession :=
  {| session := sample_session; now := 0; trace := [] |}.

Definition sample_user : client.User :=
  {| client.User_Auth :=
       {| client.DeviceID := "d1"; client.ID := 42%Z; client.Token := "T" |};
     client.Email := "a@b.c"; client.Code := "LINK2";
     client.Referral := "R1"; client.UserStatus := "active";
     client.Expiration := 1700000000%Z; client.Subscription := "pro";
     client.ExpireAt := 1600000000%Z;
     client.Devices :=
       [ {| client.Device_Id := "d1"; client.Device_Name := "phone" |};
         {| client.Device_Id := "d2"; client.Device_Name := "laptop" |} ] |}.

Definition sample_response (status message : string)
    (plans : list client.Plan) : client.Response :=
  {| client.Status := status; client.Error := message;
     client.Response_User := sample_user; client.PubKey := "pk_test";
     client.Plans := plans |}.

Definition plan_priced (price : list (string * int)) : client.Plan :=
  {| client.Plan_Id := "1y"; client.Description := "One year";
     client.Price := price; client.BestValue := true;
     client.Duration := {| client.Years := 1%Z |} |}.

(** Some answers of the Pro server. *)
Definition answer_ok : Result := (Some (sample_response "ok" "" []), None).

Definition answer_refused : Result :=
  (Some (sample_response "error" "card_declined" []), None).

Definition answer_timeout : Result := (None, Some "timeout").

Definition answer_garbled : Result :=
  (Some (sample_response "" "truncated" []), Some "unexpected end of JSON").

Definition answer_unnamed_currency : Result :=
  (Some (sample_response "ok" "" [plan_priced [("", 5%Z)]]), None).

Definition answer_plans : Result :=
  (Some (sample_response "ok" ""
           [ plan_priced [("", 5%Z)];
             plan_priced [];
             plan_priced [("eur", 9%Z); ("usd", 10%Z)] ]),
   None).

(** No answer at all: a nil response and a nil error. *)
Definition answer_nothing : Result := (None, None).

(** A transport factory that fails. *)
Definition offline : client.HTTPClient + error := inr "no route to proxy".

(** The identity snapshot taken from [sample_session]. *)
Definition sample_snapshot : client.User :=
  client.userOf
    {| client.DeviceID := "d1"; client.ID := 7%Z;
       client.Token := "old-token" |}.

(** ** The list-plans claim as the specification words it *)

(** "Given a plan whose currency/price mapping is empty, no plan record is
    appended for it; given a plan with one or more entries, exactly one
    plan record is appended using one of its currency/price pairs." *)
Inductive stated_appended_for (plan : client.Plan) : list Mutator -> Prop :=
| stated_none :
    client.Price plan = [] -> stated_appended_for plan []
| stated_one currency price :
    In (currency, price) (client.Price plan) ->
    stated_appended_for plan
      [AddPlan (client.Plan_Id plan) (client.Description plan) currency
               (client.BestValue plan)
               (client.Years (client.Duration plan)) price].

(** "On a successful list-plans call, the Stripe public key from the
    response is written to Session, and for every plan in the
    response ...", for one dispatch. *)
Definition plans_claim (env : Env) (shouldProxy : bool)
    (w : World MemSession) : Prop :=
  let run := ProRequest env shouldProxy "plans" theSession w in
  let evs := events_of w (snd run) in
  forall rpc rs,
    fst run = Returned true ->
    In (rpc, (Some rs, None)) (remote_calls evs) ->
    exists recs,
      Forall2 stated_appended_for (client.Plans rs) recs /\
      mutators evs = SetStripePubKey (client.PubKey rs) :: concat recs.

(** ** Vocabulary of the further properties *)

(** The identity that [newRequest] copies from the Session. *)
Definition snapshot {S} `{Session S} (s : S) : client.Auth :=
  {| client.DeviceID := DeviceId s;
     client.ID := UserId s;
     client.Token := Token s |}.

(** The [user] argument of a remote call. *)
Definition call_user (rpc : Client.Call) : client.User :=
  match rpc with
  | Client.UserCreate u
  | Client.Purchase u _ _ _
  | Client.RequestLinkCode u _
  | Client.RedeemLinkCode u _
  | Client.ApplyLinkCode u
  | Client.RedeemReferralCode u _
  | Client.CancelSubscription u
  | Client.Plans u
  | Client.UserData u
  | Client.UserLinkRemove u _ => u
  end.

(** The name of the method of [*client.Client] behind a remote call. *)
Definition call_method (rpc : Client.Call) : string :=
  match rpc with
  | Client.UserCreate _ => "UserCreate"
  | Client.Purchase _ _ _ _ => "Purchase"
  | Client.RequestLinkCode _ _ => "RequestLinkCode"
  | Client.RedeemLinkCode _ _ => "RedeemLinkCode"
  | Client.ApplyLinkCode _ => "ApplyLinkCode"
  | Client.RedeemReferralCode _ _ => "RedeemReferralCode"
  | Client.CancelSubscription _ => "CancelSubscription"
  | Client.Plans _ => "Plans"
  | Client.UserData _ => "UserData"
  | Client.UserLinkRemove _ _ => "UserLinkRemove"
  end.

(** The remote calls of a trace, with the client they were made on. *)
Fixpoint remote_events (t : list Event)
  : list (client.Client * Client.Call * Result) :=
  match t with
  | [] => []
  | EvRemote c rpc res :: rest => (c, rpc, res) :: remote_events rest
  | _ :: rest => remote_events rest
  end.

(** The mutating calls of [requestcode] and [redeemcode] for what the
    remote call returned. *)
Definition requestcode_calls (res : Result) : list Mutator :=
  match res with
  | (Some rs, None) =>
      let u := client.Response_User rs in
      [SetDeviceCode (client.Code u) (client.ExpireAt u)]
  | _ => []
  end.

Definition redeemcode_calls (res : Result) : list Mutator :=
  match res with
  | (Some rs, None) =>
      if client.Status rs =? "ok" then
        let u := client.Response_User rs in
        [ SetToken (client.Token (client.User_Auth u));
          SetUserId (client.ID (client.User_Auth u)) ]
      else []
  | _ => []
  end.

Definition is_SetError (m : Mutator) : bool :=
  match m with
  | SetError _ _ => true
  | _ => false
  end.

Definition is_AddPlan (m : Mutator) : bool :=
  match m with
  | AddPlan _ _ _ _ _ _ => true
  | _ => false
  end.

Definition is_SetStripePubKey (m : Mutator) : bool :=
  match m with
  | SetStripePubKey _ => true
  | _ => false
  end.


(** The commands whose handlers make no Session call of their own. *)
Definition read_only_commands : list string :=
  [ "purchase"; "signin"; "referral"; "cancel" ].

(** The remote method behind every command. *)
Definition command_methods : list (string * string) :=
  [ ("newuser", "UserCreate");
    ("purchase", "Purchase");
    ("plans", "Plans");
    ("signin", "ApplyLinkCode");
    ("redeemcode", "RedeemLinkCode");
    ("requestcode", "RequestLinkCode");
    ("userdata", "UserData");
    ("referral", "RedeemReferralCode");
    ("cancel", "CancelSubscription") ].

(** * Properties *)

Section Facts.

Context {S : Type} {SessionS : Session S}.
Variable env : Env.

Lemma events_of_app (w w' : World S) d :
  trace w' = trace w ++ d -> events_of w w' = d.
Proof.
  unfold events_of. intros ->.
  induction (trace w); simpl; auto.
Qed.

Lemma mutators_app t u : mutators (t ++ u) = mutators t ++ mutators u.
Proof.
  induction t as [|[] t IH]; simpl; rewrite ?IH; reflexivity.
Qed.

Lemma mutators_session ms : mutators (map EvSession ms) = ms.
Proof. induction ms; simpl; congruence. Qed.

Lemma remote_calls_app t u :
  remote_calls (t ++ u) = remote_calls t ++ remote_calls u.
Proof.
  induction t as [|[] t IH]; simpl; rewrite ?IH; reflexivity.
Qed.

Lemma remote_calls_session ms : remote_calls (map EvSession ms) = [].
Proof. induction ms; simpl; auto. Qed.

Lemma purchase_keys_app t u :
  purchase_keys (t ++ u) = purchase_keys t ++ purchase_keys u.
Proof. apply flat_map_app. Qed.

Lemma purchase_keys_session ms : purchase_keys (map EvSession ms) = [].
Proof. induction ms; simpl; auto. Qed.

Lemma apply_all_app ms ns (s : S) :
  apply_all (ms ++ ns) s = apply_all ns (apply_all ms s).
Proof. apply fold_left_app. Qed.

(** A [range] loop whose body makes [calls x] mutating calls. *)
Lemma range_calls {A} (calls : A -> list Mutator) (body : A -> M S unit) :
  (forall x w, body x w =
     (Returned tt,
      {| session := apply_all (calls x) (session w);
         now := now w;
         trace := trace w ++ map EvSession (calls x) |})) ->
  forall l w,
    range l body w =
      (Returned tt,
       {| session := apply_all (flat_map calls l) (session w);
          now := now w;
          trace := trace w ++ map EvSession (flat_map calls l) |}).
Proof.
  intros Hbody l. induction l as [|x l IH]; intros w; simpl.
  - unfold ret. destruct w; simpl. rewrite app_nil_r. reflexivity.
  - unfold bind. rewrite Hbody, IH. simpl.
    rewrite apply_all_app, map_app, app_assoc. reflexivity.
Qed.

(** Introduction rules for [handled] and [dispatched] that take the
    final world apart. *)
Lemma after_eq (w w' : World S) pre c rpc res ms :
  session w' = apply_all ms (session w) ->
  now w' = now w + length pre + 1 ->
  trace w' = trace w ++ pre ++ EvRemote c rpc res :: map EvSession ms ->
  w' = after w pre c rpc res ms.
Proof.
  destruct w' as [s n t]; simpl; intros -> -> ->. reflexivity.
Qed.

Lemma prelude_none t rpc : call_key rpc = [] -> prelude env t [] rpc.
Proof. left; auto. Qed.

Lemma prelude_key t rpc :
  call_key rpc = [NewIdempotencyKey env t] ->
  prelude env t [EvKey (NewIdempotencyKey env t)] rpc.
Proof. right; auto. Qed.

Ltac run :=
  unfold session_of, failed, bind, get, call, deref, invoke,
    stripe_NewIdempotencyKey, ret, panic; simpl.

Ltac world evs calls :=
  apply after_eq with (pre := evs) (ms := calls); simpl;
  rewrite <- ?app_assoc; simpl; solve [reflexivity | lia].

Lemma handled_error_intro w w' pre c rpc res e :
  w' = after w pre c rpc (res, Some e) [] ->
  prelude env (now w) pre rpc ->
  handled env w (Returned (res, Some e), w').
Proof. intros ->. apply handled_error. Qed.

Lemma handled_response_intro w w' pre c rpc rs ms :
  w' = after w pre c rpc (Some rs, None) ms ->
  prelude env (now w) pre rpc ->
  handled env w (Returned (Some rs, None), w').
Proof. intros ->. apply handled_response. Qed.

Lemma handled_nothing_intro w w' pre c rpc out :
  w' = after w pre c rpc (None, None) [] ->
  prelude env (now w) pre rpc ->
  out = Panicked nil_dereference \/ out = Returned (None, None) ->
  handled env w (out, w').
Proof. intros ->. apply handled_nothing. Qed.

Ltac prelude_ok :=
  solve [apply prelude_none; reflexivity | apply prelude_key; reflexivity].

Ltac close evs calls :=
  match goal with
  | |- handled _ _ (Returned (_, Some _), _) =>
      eapply handled_error_intro with (pre := evs);
      [ world evs (@nil Mutator) | prelude_ok ]
  | |- handled _ _ (Returned (Some _, None), _) =>
      eapply handled_response_intro with (pre := evs) (ms := calls);
      [ world evs calls | prelude_ok ]
  | |- handled _ _ _ =>
      eapply handled_nothing_intro with (pre := evs);
      [ world evs (@nil Mutator) | prelude_ok | auto ]
  end.

Lemma newuser_handled r w :
  r_session r = Some theSession -> handled env w (newuser env r w).
Proof.
  intros Hs. unfold newuser. run. rewrite Hs. simpl.
  destruct (remote env _ _ _) as [[rs|] [e|]]; simpl.
  - close (@nil Event) (@nil Mutator).
  - close (@nil Event)
      [SetUserId (client.ID (client.User_Auth (client.Response_User rs)));
       SetToken (client.Token (client.User_Auth (client.Response_User rs)));
       SetCode (client.Referral (client.Response_User rs))].
  - close (@nil Event) (@nil Mutator).
  - close (@nil Event) (@nil Mutator).
Qed.

Lemma purchase_handled r w :
  r_session r = Some theSession -> handled env w (purchase env r w).
Proof.
  intros Hs. unfold purchase. run. rewrite Hs. simpl.
  destruct (remote env _ _ _) as [[rs|] [e|]]; simpl;
    close [EvKey (NewIdempotencyKey env (now w))] (@nil Mutator).
Qed.

Lemma requestcode_handled r w :
  r_session r = Some theSession -> handled env w (requestcode env r w).
Proof.
  intros Hs. unfold requestcode. run. rewrite Hs. simpl.
  destruct (remote env _ _ _) as [[rs|] [e|]]; simpl.
  - close (@nil Event) (@nil Mutator).
  - close (@nil Event)
      [SetDeviceCode (client.Code (client.Response_User rs))
                     (client.ExpireAt (client.Response_User rs))].
  - close (@nil Event) (@nil Mutator).
  - close (@nil Event) (@nil Mutator).
Qed.

Lemma redeemcode_handled r w :
  r_session r = Some theSession -> handled env w (redeemcode env r w).
Proof.
  intros Hs. unfold redeemcode. run. rewrite Hs. simpl.
  destruct (remote env _ _ _) as [[rs|] [e|]]; simpl.
  - close (@nil Event) (@nil Mutator).
  - destruct (client.Status rs =? "ok"); simpl.
    + close (@nil Event)
        [SetToken (client.Token
                     (client.User_Auth (client.Response_User rs)));
         SetUserId (client.ID
                      (client.User_Auth (client.Response_User rs)))].
    + close (@nil Event) (@nil Mutator).
  - close (@nil Event) (@nil Mutator).
  - close (@nil Event) (@nil Mutator).
Qed.

Lemma signin_handled r w :
  r_session r = Some theSession -> handled env w (signin env r w).
Proof.
  intros Hs. unfold signin. run. rewrite Hs. simpl.
  destruct (remote env _ _ _) as [[rs|] [e|]]; simpl;
    close (@nil Event) (@nil Mutator).
Qed.

Lemma referral_handled r w :
  r_session r = Some theSession -> handled env w (referral env r w).
Proof.
  intros Hs. unfold referral. run. rewrite Hs. simpl.
  destruct (remote env _ _ _) as [[rs|] [e|]]; simpl;
    close (@nil Event) (@nil Mutator).
Qed.

Lemma cancel_handled r w : handled env w (cancel env r w).
Proof.
  unfold cancel. run.
  destruct (remote env _ _ _) as [[rs|] [e|]]; simpl;
    close (@nil Event) (@nil Mutator).
Qed.

Lemma plans_response r w rs :
  r_session r = Some theSession ->
  remote env (now w) (proClient r) (Client.Plans (user r))
    = (Some rs, None) ->
  plans env r w =
    (Returned (Some rs, None),
     after w [] (proClient r) (Client.Plans (user r)) (Some rs, None)
           (plans_calls rs)).
Proof.
  intros Hs Hr. unfold plans, plans_calls. run. rewrite Hr, Hs. simpl.
  destruct (Nat.eqb (length (client.Plans rs)) 0) eqn:Hlen; simpl.
  - destruct (client.Plans rs); [| discriminate].
    f_equal. world (@nil Event) (@nil Mutator).
  - match goal with
    | |- context [range ?l ?b ?v] => rewrite (range_calls plan_calls b)
    end.
    + destruct (client.Plans rs) as [|plan ps]; [discriminate |].
      simpl. f_equal.
      world (@nil Event)
        (SetStripePubKey (client.PubKey rs)
           :: (plan_calls plan ++ flat_map plan_calls ps)).
    + intros x v. unfold plan_calls.
      destruct (first_entry (client.Price x)) as [currency price].
      destruct (negb (currency =? "")); simpl.
      * reflexivity.
      * destruct v; simpl. rewrite app_nil_r. reflexivity.
Qed.

Lemma plans_handled r w :
  r_session r = Some theSession -> handled env w (plans env r w).
Proof.
  intros Hs.
  destruct (remote env (now w) (proClient r) (Client.Plans (user r)))
    as [[rs|] [e|]] eqn:Hr.
  - unfold plans. run. rewrite Hr. simpl.
    close (@nil Event) (@nil Mutator).
  - rewrite (plans_response r w rs Hs Hr). apply handled_response.
    apply prelude_none. reflexivity.
  - unfold plans. run. rewrite Hr. simpl.
    close (@nil Event) (@nil Mutator).
  - unfold plans. run. rewrite Hr. simpl.
    close (@nil Event) (@nil Mutator).
Qed.

Lemma userdata_response r w rs :
  r_session r = Some theSession ->
  remote env (now w) (proClient r) (Client.UserData (user r))
    = (Some rs, None) ->
  userdata env r w =
    (Returned (Some rs, None),
     after w [] (proClient r) (Client.UserData (user r)) (Some rs, None)
           (userdata_calls rs)).
Proof.
  intros Hs Hr. unfold userdata, userdata_calls. run. rewrite Hr, Hs.
  simpl.
  match goal with
  | |- context [range ?l ?b ?v] =>
      rewrite (range_calls (fun d => [device_call d]) b)
  end.
  - simpl. f_equal.
    replace (flat_map (fun d => [device_call d])
               (client.Devices (client.Response_User rs)))
      with (map device_call (client.Devices (client.Response_User rs)))
      by (rewrite flat_map_concat_map; induction (client.Devices _);
          simpl; congruence).
    apply after_eq; simpl.
    + rewrite apply_all_app. reflexivity.
    + lia.
    + rewrite map_app, <- !app_assoc. reflexivity.
  - intros x v. reflexivity.
Qed.

Lemma userdata_handled r w :
  r_session r = Some theSession -> handled env w (userdata env r w).
Proof.
  intros Hs.
  destruct (remote env (now w) (proClient r) (Client.UserData (user r)))
    as [[rs|] [e|]] eqn:Hr.
  - unfold userdata. run. rewrite Hr. simpl.
    close (@nil Event) (@nil Mutator).
  - rewrite (userdata_response r w rs Hs Hr). apply handled_response.
    apply prelude_none. reflexivity.
  - unfold userdata. run. rewrite Hr. simpl.
    close (@nil Event) (@nil Mutator).
  - unfold userdata. run. rewrite Hr. simpl.
    close (@nil Event) (@nil Mutator).
Qed.

(** ** The registry *)

Lemma registered_handled command :
  In command command_names ->
  exists h, lookup (commands env) command = Some h /\
    forall r w, r_session r = Some theSession -> handled env w (h r w).
Proof.
  unfold command_names. simpl.
  intros [<-|[<-|[<-|[<-|[<-|[<-|[<-|[<-|[<-|[]]]]]]]]]];
    (eexists; split; [reflexivity |]); intros r w Hs.
  - apply newuser_handled; auto.
  - apply purchase_handled; auto.
  - apply plans_handled; auto.
  - apply signin_handled; auto.
  - apply redeemcode_handled; auto.
  - apply requestcode_handled; auto.
  - apply userdata_handled; auto.
  - apply referral_handled; auto.
  - apply cancel_handled.
Qed.

Lemma unregistered_lookup command :
  ~ In command command_names -> lookup (commands env) command = None.
Proof.
  unfold command_names. intros Hn. simpl in Hn.
  unfold commands. cbn [lookup].
  repeat match goal with
  | |- context [?k =? command] =>
      destruct (String.eqb_spec k command);
        [exfalso; apply Hn; tauto |]
  end.
  reflexivity.
Qed.

(** ** The dispatcher *)

Lemma after_call (w : World S) pre c rpc res ms m :
  {| session := mutate m (session (after w pre c rpc res ms));
     now := now (after w pre c rpc res ms);
     trace := trace (after w pre c rpc res ms) ++ [EvSession m] |}
  = after w pre c rpc res (ms ++ [m]).
Proof.
  unfold after; simpl. f_equal.
  - rewrite apply_all_app. reflexivity.
  - rewrite map_app, <- !app_assoc. reflexivity.
Qed.

Lemma ProRequest_no_client shouldProxy command w e :
  GetHTTPClient env (now w) shouldProxy = inr e ->
  ProRequest env shouldProxy command theSession w
    = (Returned false, connected w shouldProxy (inr e)).
Proof.
  intros He. unfold ProRequest, newRequest, proxied_GetHTTPClient.
  run. rewrite He. reflexivity.
Qed.

Lemma ProRequest_dispatched shouldProxy command w :
  In command command_names ->
  dispatched env shouldProxy command w
    (ProRequest env shouldProxy command theSession w).
Proof.
  intros Hin.
  destruct (GetHTTPClient env (now w) shouldProxy) as [h|e] eqn:Hc.
  - destruct (registered_handled command Hin) as (f & Hf & Hh).
    unfold ProRequest, newRequest, proxied_GetHTTPClient, bind, get, ret.
    cbn -[lookup commands]. rewrite Hc. cbn -[lookup commands].
    rewrite Hf. cbn.
    match goal with
    | |- context [f ?r ?v] =>
        specialize (Hh r v eq_refl); destruct (f r v) as [out w1]
    end.
    change {| session := session w; now := Datatypes.S (now w);
              trace := trace w ++ [EvHTTPClient shouldProxy (inl h)] |}
      with (connected w shouldProxy (inl h)) in Hh.
    inversion Hh as [pre c rpc res e Hp | pre c rpc rs ms Hp
                    | pre c rpc out' Hp Hout]; subst;
      unfold failed, bind, ret, deref, call, panic; cbn -[after String.eqb].
    + destruct res as [rs|]; cbv beta iota.
      * rewrite after_call.
        apply (dispatched_failed env shouldProxy command w h pre c rpc rs
                 (Some e) []); auto.
        left; discriminate.
      * apply dispatched_no_response; auto.
    + destruct (client.Status rs =? "ok") eqn:Hst; cbn -[after].
      * apply dispatched_ok; auto. apply String.eqb_eq; auto.
      * rewrite after_call. apply dispatched_failed; auto.
        -- right. apply String.eqb_neq; auto.
        -- intros He; contradiction.
    + destruct Hout as [-> | ->]; cbn -[after];
        apply dispatched_fault; auto.
  - rewrite (ProRequest_no_client _ _ _ e Hc).
    apply dispatched_no_client; auto.
Qed.

(** Once the transport client is built, [ProRequest] is the handler
    followed by the success test. *)
Lemma ProRequest_unfold shouldProxy command w h :
  GetHTTPClient env (now w) shouldProxy = inl h ->
  ProRequest env shouldProxy command theSession w =
    bind (deref (lookup (commands env) command)) (fun handler =>
    bind (handler (dispatch_request w h)) (fun '(res, err) =>
    bind (failed res err) (fun bad =>
      if bad then
        match res with
        | Some rs =>
            bind (call theSession (SetError command (client.Error rs)))
                 (fun _ => ret false)
        | None => ret false
        end
      else ret true)))
    (connected w shouldProxy (inl h)).
Proof.
  intros Hc.
  unfold ProRequest, newRequest, proxied_GetHTTPClient, bind, get, ret.
  cbn -[lookup commands]. rewrite Hc. cbn -[lookup commands].
  reflexivity.
Qed.

Lemma ProRequest_unknown shouldProxy command w h :
  GetHTTPClient env (now w) shouldProxy = inl h ->
  ~ In command command_names ->
  ProRequest env shouldProxy command theSession w
    = (Panicked nil_dereference, connected w shouldProxy (inl h)).
Proof.
  intros Hc Hn. rewrite (ProRequest_unfold _ _ _ h Hc).
  rewrite (unregistered_lookup _ Hn). reflexivity.
Qed.

(** ** The events of a run *)

Lemma events_connected (w : World S) shouldProxy res :
  events_of w (connected w shouldProxy res)
    = [EvHTTPClient shouldProxy res].
Proof. apply events_of_app. reflexivity. Qed.

Lemma events_after (w : World S) shouldProxy cres pre c rpc res ms :
  events_of w (after (connected w shouldProxy cres) pre c rpc res ms)
    = EvHTTPClient shouldProxy cres
        :: pre ++ EvRemote c rpc res :: map EvSession ms.
Proof.
  apply events_of_app. simpl. rewrite <- app_assoc. reflexivity.
Qed.

Lemma prelude_quiet t pre rpc :
  prelude env t pre rpc ->
  mutators pre = [] /\ remote_calls pre = [] /\ purchase_keys pre = [].
Proof. intros [[-> _]|[-> _]]; auto. Qed.

Lemma mutators_run t pre c rpc res ms e :
  prelude env t pre rpc ->
  mutators (e :: pre ++ EvRemote c rpc res :: map EvSession ms)
    = mutators [e] ++ ms.
Proof.
  intros Hp. destruct (prelude_quiet _ _ _ Hp) as (Hm & _).
  change (e :: pre ++ EvRemote c rpc res :: map EvSession ms)
    with ([e] ++ pre ++ [EvRemote c rpc res] ++ map EvSession ms).
  rewrite !mutators_app, Hm, mutators_session. reflexivity.
Qed.

Lemma remote_calls_run t pre c rpc res ms e :
  prelude env t pre rpc ->
  remote_calls (e :: pre ++ EvRemote c rpc res :: map EvSession ms)
    = remote_calls [e] ++ [(rpc, res)].
Proof.
  intros Hp. destruct (prelude_quiet _ _ _ Hp) as (_ & Hr & _).
  change (e :: pre ++ EvRemote c rpc res :: map EvSession ms)
    with ([e] ++ pre ++ [EvRemote c rpc res] ++ map EvSession ms).
  rewrite !remote_calls_app, Hr, remote_calls_session. reflexivity.
Qed.

(** What [dispatched] says about a run, in terms of its events. *)
Lemma dispatched_observed shouldProxy command w out w' :
  dispatched env shouldProxy command w (out, w') ->
  (exists e,
     GetHTTPClient env (now w) shouldProxy = inr e /\
     out = Returned false /\ session w' = session w /\
     mutators (events_of w w') = [] /\
     remote_calls (events_of w w') = []) \/
  (exists h rpc res err ms,
     GetHTTPClient env (now w) shouldProxy = inl h /\
     remote_calls (events_of w w') = [(rpc, (res, err))] /\
     mutators (events_of w w') = ms /\
     session w' = apply_all ms (session w) /\
     match res, err with
     | Some rs, None =>
         if client.Status rs =? "ok"
         then out = Returned true
         else out = Returned false /\
              exists ms', ms = ms' ++ [SetError command (client.Error rs)]
     | Some rs, Some _ =>
         out = Returned false /\
         ms = [SetError command (client.Error rs)]
     | None, Some _ => out = Returned false /\ ms = []
     | None, None => out = Panicked nil_dereference /\ ms = []
     end).
Proof.
  intros H. inversion H as [e Hc | h pre c rpc rs ms Hc Hp Hst
                           | h pre c rpc rs err ms Hc Hp Hbad Hms
                           | h pre c rpc e Hc Hp | h pre c rpc Hc Hp];
    subst.
  - left. exists e. rewrite events_connected. auto.
  - right. exists h, rpc, (Some rs), None, ms.
    rewrite events_after, (mutators_run _ _ _ _ _ _ _ Hp),
      (remote_calls_run _ _ _ _ _ _ _ Hp). simpl.
    rewrite Hst. simpl. repeat split; auto.
  - right. exists h, rpc, (Some rs), err,
      (ms ++ [SetError command (client.Error rs)]).
    rewrite events_after, (mutators_run _ _ _ _ _ _ _ Hp),
      (remote_calls_run _ _ _ _ _ _ _ Hp). simpl.
    repeat split; auto.
    destruct err as [e|].
    + rewrite Hms by discriminate. auto.
    + destruct Hbad as [Hbad|Hbad]; [congruence|].
      apply String.eqb_neq in Hbad. rewrite Hbad. eauto.
  - right. exists h, rpc, None, (Some e), [].
    rewrite events_after, (mutators_run _ _ _ _ _ _ _ Hp),
      (remote_calls_run _ _ _ _ _ _ _ Hp). simpl. auto 10.
  - right. exists h, rpc, None, None, [].
    rewrite events_after, (mutators_run _ _ _ _ _ _ _ Hp),
      (remote_calls_run _ _ _ _ _ _ _ Hp). simpl. auto 10.
Qed.

Ltac crush :=
  repeat split; intros;
  repeat match goal with
  | H : _ /\ _ |- _ => destruct H
  | H : exists _, _ |- _ => destruct H
  | H : Some _ = Some _ |- _ => inversion H; clear H; subst
  end;
  try discriminate; try congruence; eauto.

(** ** The dispatcher: unknown commands *)

(** C1.  The code does not do what the claim asks for.  For a command
    name outside the registry, once the transport client is built, the
    map lookup of [ProRequest] yields the nil function and calling it
    panics: [ProRequest] does not return [false], it faults with a nil
    dereference.  (The Session is not mutated on the way.) *)
Theorem ProRequest_unknown_command_faults shouldProxy command w h :
  ~ In command command_names ->
  GetHTTPClient env (now w) shouldProxy = inl h ->
  let run := ProRequest env shouldProxy command theSession w in
  fst run = Panicked nil_dereference /\
  fst run <> Returned false /\
  session (snd run) = session w /\
  mutators (events_of w (snd run)) = [].
Proof.
  intros Hn Hc run. subst run.
  rewrite (ProRequest_unknown _ _ _ h Hc Hn). simpl.
  rewrite events_connected. repeat split; auto. discriminate.
Qed.

(** ** The dispatcher: the success test *)

(** C3.  For every registered command: when the transport client cannot
    be built, [ProRequest] returns false, makes no remote call and does
    not touch the Session.  Otherwise the handler makes exactly one
    remote call, and [ProRequest] returns true iff that call returned no
    error and a response whose status is "ok"; when it does not return
    true and a response was returned, it returns false and its last
    Session call is [SetError command message], with the message of the
    response; when no response came with the error, it returns false
    and the Session is untouched. *)
Theorem ProRequest_success_test shouldProxy command w :
  In command command_names ->
  let run := ProRequest env shouldProxy command theSession w in
  let evs := events_of w (snd run) in
  (forall e, GetHTTPClient env (now w) shouldProxy = inr e ->
     fst run = Returned false /\
     remote_calls evs = [] /\ mutators evs = [] /\
     session (snd run) = session w) /\
  (forall h, GetHTTPClient env (now w) shouldProxy = inl h ->
     exists rpc res err,
       remote_calls evs = [(rpc, (res, err))] /\
       (fst run = Returned true <-> err = None /\ status_ok res) /\
       (forall rs, res = Some rs -> fst run <> Returned true ->
          fst run = Returned false /\
          exists ms,
            mutators evs = ms ++ [SetError command (client.Error rs)] /\
            session (snd run) =
              mutate (SetError command (client.Error rs))
                     (apply_all ms (session w))) /\
       (res = None -> err <> None ->
          fst run = Returned false /\ mutators evs = [] /\
          session (snd run) = session w)).
Proof.
  intros Hin run evs. subst evs run.
  pose proof (ProRequest_dispatched shouldProxy command w Hin) as Hd.
  destruct (ProRequest env shouldProxy command theSession w) as [out w'].
  apply dispatched_observed in Hd. simpl.
  destruct Hd as [(e & Hc & -> & Hs & Hm & Hr)
                 |(h & rpc & res & err & ms & Hc & Hr & Hm & Hs & Hcase)].
  - split; [| intros h Hh; congruence]. intros _ _. auto.
  - split; [intros e He; congruence |]. intros _ _.
    exists rpc, res, err. split; [exact Hr |].
    rewrite Hm, Hs. unfold status_ok.
    destruct res as [rs|], err as [e|].
    + destruct Hcase as [-> ->]. crush.
      exists []. auto.
    + destruct (client.Status rs =? "ok") eqn:Hst.
      * subst out. apply String.eqb_eq in Hst. crush.
      * destruct Hcase as [-> (ms' & ->)].
        apply String.eqb_neq in Hst. crush.
        exists ms'. split; auto.
        unfold apply_all. rewrite fold_left_app. reflexivity.
    + destruct Hcase as [-> ->]. crush.
    + destruct Hcase as [-> ->]. crush.
Qed.

(** ** Exact runs *)

Lemma ProRequest_settle shouldProxy command w h f out pre c rpc res ms :
  GetHTTPClient env (now w) shouldProxy = inl h ->
  lookup (commands env) command = Some f ->
  f (dispatch_request w h) (connected w shouldProxy (inl h))
    = (out, after (connected w shouldProxy (inl h)) pre c rpc res ms) ->
  out = Returned res \/ out = handler_outcome res ->
  ProRequest env shouldProxy command theSession w
    = (verdict res,
       after (connected w shouldProxy (inl h)) pre c rpc res
             (ms ++ error_calls command res)).
Proof.
  intros Hc Hf Hrun Hout.
  rewrite (ProRequest_unfold _ _ _ h Hc), Hf.
  unfold bind at 1. unfold deref at 1. unfold ret at 1.
  unfold bind at 1. rewrite Hrun.
  assert (Happ : forall l : list Mutator, l ++ [] = l)
    by (intros; apply app_nil_r).
  destruct res as [[rs|] [e|]]; unfold handler_outcome in Hout;
    destruct Hout as [-> | ->];
    unfold failed, bind, ret, deref, call, panic, verdict, error_calls;
    cbn -[after String.eqb]; rewrite ?Happ, ?after_call; try reflexivity.
  all: destruct (client.Status rs =? "ok"); cbn -[after];
    rewrite ?Happ, ?after_call; reflexivity.
Qed.

Lemma newuser_run r w :
  r_session r = Some theSession ->
  let c := client.SetLocale (Locale (session w)) (proClient r) in
  let rpc := Client.UserCreate (user r) in
  let res := remote env (now w) c rpc in
  newuser env r w
    = (handler_outcome res, after w [] c rpc res (newuser_calls res)).
Proof.
  intros Hs c rpc res. subst c rpc res.
  unfold newuser. run. rewrite Hs. simpl.
  destruct (remote env _ _ _) as [[rs|] [e|]]; simpl;
    (apply f_equal2; [reflexivity |]).
  - world (@nil Event) (@nil Mutator).
  - world (@nil Event)
      [SetUserId (client.ID (client.User_Auth (client.Response_User rs)));
       SetToken (client.Token (client.User_Auth (client.Response_User rs)));
       SetCode (client.Referral (client.Response_User rs))].
  - world (@nil Event) (@nil Mutator).
  - world (@nil Event) (@nil Mutator).
Qed.

Lemma plans_run r w :
  r_session r = Some theSession ->
  let rpc := Client.Plans (user r) in
  let res := remote env (now w) (proClient r) rpc in
  plans env r w
    = (handler_outcome res,
       after w [] (proClient r) rpc res (plans_writes res)).
Proof.
  intros Hs rpc res. subst rpc res.
  destruct (remote env (now w) (proClient r) (Client.Plans (user r)))
    as [[rs|] [e|]] eqn:Hr.
  2: { rewrite (plans_response r w rs Hs Hr). reflexivity. }
  all: unfold plans; run; rewrite Hr; simpl;
    (apply f_equal2; [reflexivity |]);
    world (@nil Event) (@nil Mutator).
Qed.

Lemma userdata_run r w :
  r_session r = Some theSession ->
  let rpc := Client.UserData (user r) in
  let res := remote env (now w) (proClient r) rpc in
  userdata env r w
    = (handler_outcome res,
       after w [] (proClient r) rpc res (userdata_writes res)).
Proof.
  intros Hs rpc res. subst rpc res.
  destruct (remote env (now w) (proClient r) (Client.UserData (user r)))
    as [[rs|] [e|]] eqn:Hr.
  2: { rewrite (userdata_response r w rs Hs Hr). reflexivity. }
  all: unfold userdata; run; rewrite Hr; simpl;
    (apply f_equal2; [reflexivity |]);
    world (@nil Event) (@nil Mutator).
Qed.

Lemma ProRequest_newuser shouldProxy w h :
  GetHTTPClient env (now w) shouldProxy = inl h ->
  let r := dispatch_request w h in
  let c := client.SetLocale (Locale (session w)) (proClient r) in
  let rpc := Client.UserCreate (user r) in
  let res := remote env (Datatypes.S (now w)) c rpc in
  ProRequest env shouldProxy "newuser" theSession w
    = (verdict res,
       after (connected w shouldProxy (inl h)) [] c rpc res
             (newuser_calls res ++ error_calls "newuser" res)).
Proof.
  intros Hc r c rpc res.
  eapply ProRequest_settle with (f := newuser env);
    [ exact Hc | reflexivity
    | apply (newuser_run r (connected w shouldProxy (inl h))); reflexivity
    | right; reflexivity ].
Qed.

Lemma ProRequest_plans shouldProxy w h :
  GetHTTPClient env (now w) shouldProxy = inl h ->
  let r := dispatch_request w h in
  let rpc := Client.Plans (user r) in
  let res := remote env (Datatypes.S (now w)) (proClient r) rpc in
  ProRequest env shouldProxy "plans" theSession w
    = (verdict res,
       after (connected w shouldProxy (inl h)) [] (proClient r) rpc res
             (plans_writes res ++ error_calls "plans" res)).
Proof.
  intros Hc r rpc res.
  eapply ProRequest_settle with (f := plans env);
    [ exact Hc | reflexivity
    | apply (plans_run r (connected w shouldProxy (inl h))); reflexivity
    | right; reflexivity ].
Qed.

Lemma ProRequest_userdata shouldProxy w h :
  GetHTTPClient env (now w) shouldProxy = inl h ->
  let r := dispatch_request w h in
  let rpc := Client.UserData (user r) in
  let res := remote env (Datatypes.S (now w)) (proClient r) rpc in
  ProRequest env shouldProxy "userdata" theSession w
    = (verdict res,
       after (connected w shouldProxy (inl h)) [] (proClient r) rpc res
             (userdata_writes res ++ error_calls "userdata" res)).
Proof.
  intros Hc r rpc res.
  eapply ProRequest_settle with (f := userdata env);
    [ exact Hc | reflexivity
    | apply (userdata_run r (connected w shouldProxy (inl h))); reflexivity
    | right; reflexivity ].
Qed.

(** The events of a run whose remote call came first. *)
Lemma observed_after (w : World S) shouldProxy cres c rpc res ms :
  let w' := after (connected w shouldProxy cres) [] c rpc res ms in
  remote_calls (events_of w w') = [(rpc, res)] /\
  mutators (events_of w w') = ms /\
  session w' = apply_all ms (session w).
Proof.
  intros w'. subst w'. rewrite events_after. simpl.
  rewrite remote_calls_session, mutators_session. auto.
Qed.

Lemma observed_connected (w : World S) shouldProxy cres :
  remote_calls (events_of w (connected w shouldProxy cres)) = [].
Proof. rewrite events_connected. reflexivity. Qed.

(** ** Writes and the status of the response *)

(** C2.  The code does not keep the invariant.  [newuser] writes the
    user id, the token and the referral code as soon as the remote call
    returns no error, before the status of the response is looked at:
    when the response has a status other than "ok", [ProRequest]
    returns false and the three writes stay in the Session, followed by
    the [SetError] call. *)
Theorem newuser_writes_survive_failure shouldProxy w rpc rs :
  let run := ProRequest env shouldProxy "newuser" theSession w in
  let evs := events_of w (snd run) in
  let u := client.Response_User rs in
  let writes :=
    [ SetUserId (client.ID (client.User_Auth u));
      SetToken (client.Token (client.User_Auth u));
      SetCode (client.Referral u);
      SetError "newuser" (client.Error rs) ] in
  In (rpc, (Some rs, None)) (remote_calls evs) ->
  client.Status rs <> "ok" ->
  fst run = Returned false /\
  mutators evs = writes /\
  session (snd run) = apply_all writes (session w).
Proof.
  intros run evs u writes. subst run evs u writes. intros Hin Hst.
  destruct (GetHTTPClient env (now w) shouldProxy) as [h|e] eqn:Hc.
  - rewrite (ProRequest_newuser _ _ h Hc) in *. simpl fst; simpl snd.
    simpl snd in Hin.
    match goal with
    | |- context [after ?a ?b ?c ?d ?res ?ms] =>
        destruct (observed_after w shouldProxy (inl h) c d res ms)
          as (Hr & Hm & Hs)
    end.
    rewrite Hr in Hin. rewrite Hm, Hs.
    destruct Hin as [Hin|[]]. inversion Hin as [[Hrpc Hres]].
    rewrite Hres. simpl.
    apply String.eqb_neq in Hst. rewrite Hst. auto.
  - rewrite (ProRequest_no_client _ _ _ e Hc) in Hin. simpl in Hin.
    rewrite observed_connected in Hin. destruct Hin.
Qed.

(** C4.  [redeemcode] makes one remote call, and writes the token or
    the user id iff that call returned no error and a response whose
    status is "ok": then it calls [SetToken] and [SetUserId] with the
    values of the response; for a response with another status and no
    error it returns without any Session call. *)
Theorem redeemcode_writes_iff_ok r w :
  r_session r = Some theSession ->
  let run := redeemcode env r w in
  let evs := events_of w (snd run) in
  exists rpc res err,
    remote_calls evs = [(rpc, (res, err))] /\
    (existsb writes_token_or_id (mutators evs) = true
       <-> err = None /\ status_ok res) /\
    (forall rs, res = Some rs -> err = None -> client.Status rs = "ok" ->
       let u := client.Response_User rs in
       let writes := [ SetToken (client.Token (client.User_Auth u));
                       SetUserId (client.ID (client.User_Auth u)) ] in
       fst run = Returned (res, err) /\
       mutators evs = writes /\
       session (snd run) = apply_all writes (session w)) /\
    (forall rs, res = Some rs -> err = None -> client.Status rs <> "ok" ->
       fst run = Returned (res, err) /\
       mutators evs = [] /\
       session (snd run) = session w).
Proof.
  intros Hs run evs. subst evs run.
  unfold redeemcode. run. rewrite Hs. simpl.
  destruct (remote env _ _ _) as [[rs|] [e|]] eqn:Hr; simpl.
  2: destruct (client.Status rs =? "ok") eqn:Hst; simpl.
  all: erewrite events_of_app
    by (simpl; rewrite <- ?app_assoc; simpl; reflexivity).
  all: simpl; do 3 eexists; (split; [reflexivity |]); unfold status_ok.
  all: try match type of Hst with
           | _ = true => apply String.eqb_eq in Hst
           | _ = false => apply String.eqb_neq in Hst
           end.
  all: crush.
Qed.

(** ** Transport errors *)

(** C5.  For every registered command, when the remote call of the
    handler returns an error, [ProRequest] returns false, and its only
    Session call is [SetError command message] when a response came
    with the error, and none otherwise: no identity-affecting field is
    written. *)
Theorem transport_error_frame shouldProxy command w rpc res e :
  In command command_names ->
  let run := ProRequest env shouldProxy command theSession w in
  let evs := events_of w (snd run) in
  In (rpc, (res, Some e)) (remote_calls evs) ->
  fst run = Returned false /\
  mutators evs =
    match res with
    | Some rs => [SetError command (client.Error rs)]
    | None => []
    end /\
  existsb writes_identity (mutators evs) = false /\
  session (snd run) = apply_all (mutators evs) (session w).
Proof.
  intros Hin run evs. subst evs run.
  pose proof (ProRequest_dispatched shouldProxy command w Hin) as Hd.
  destruct (ProRequest env shouldProxy command theSession w) as [out w'].
  apply dispatched_observed in Hd. simpl. intros Hcall.
  destruct Hd as [(e' & Hc & -> & Hs & Hm & Hr)
                 |(h & rpc' & res' & err & ms & Hc & Hr & Hm & Hs & Hcase)].
  - rewrite Hr in Hcall. destruct Hcall.
  - rewrite Hr in Hcall. destruct Hcall as [Heq|[]].
    inversion Heq; subst rpc' res' err. rewrite Hm. rewrite Hs.
    destruct res as [rs|]; destruct Hcase as [-> ->]; auto.
Qed.

(** C10.  For every registered command [f], when the handler returns a
    nil response with a non-nil error, [ProRequest] returns false in the
    world in which the handler returned: the success test does not
    dereference the response (no fault) and [SetError] is not called.
    On that path the handler itself made no Session call. *)
Theorem nil_response_with_error_is_safe shouldProxy command w h f e w1 :
  GetHTTPClient env (now w) shouldProxy = inl h ->
  lookup (commands env) command = Some f ->
  f (dispatch_request w h) (connected w shouldProxy (inl h))
    = (Returned (None, Some e), w1) ->
  ProRequest env shouldProxy command theSession w = (Returned false, w1) /\
  mutators (events_of w w1) = [] /\
  session w1 = session w.
Proof.
  intros Hc Hf Hrun. split.
  - rewrite (ProRequest_unfold _ _ _ h Hc), Hf.
    unfold bind at 1. unfold deref at 1. unfold ret at 1.
    unfold bind at 1. rewrite Hrun. reflexivity.
  - destruct (in_dec string_dec command command_names) as [Hin|Hn].
    + destruct (registered_handled command Hin) as (f' & Hf' & Hh).
      assert (f' = f) by congruence. subst f'.
      specialize (Hh (dispatch_request w h)
                     (connected w shouldProxy (inl h)) eq_refl).
      rewrite Hrun in Hh.
      inversion Hh as [pre c rpc res e' Hp | | pre c rpc out' Hp Hout];
        subst.
      * rewrite events_after, (mutators_run _ _ _ _ _ _ _ Hp). auto.
      * destruct Hout; discriminate.
    + rewrite (unregistered_lookup _ Hn) in Hf. discriminate.
Qed.

(** ** list-plans *)

Lemma plan_calls_appended plan : appended_for plan (plan_calls plan).
Proof.
  unfold plan_calls, first_entry.
  destruct (client.Price plan) as [|[currency price] rest] eqn:Hp.
  - simpl. apply appended_none_empty; auto.
  - destruct (String.eqb_spec currency "") as [->|Hne]; simpl.
    + eapply appended_none_unnamed; eauto.
    + eapply appended_one; eauto. rewrite Hp. left; auto.
Qed.

Lemma plans_appended ps : Forall2 appended_for ps (map plan_calls ps).
Proof.
  induction ps; simpl; constructor; auto using plan_calls_appended.
Qed.

(** C6, as the code has it.  When the remote call of list-plans returns
    a response without an error: if the response has no plan, [plans]
    makes no Session call (the Stripe public key is not written);
    otherwise it writes the Stripe public key and then, for the plans in
    the order of the response, the records that [appended_for] allows:
    none for a plan without a price entry or whose first visited entry
    has the empty string as currency, and exactly one, for the first
    visited entry, otherwise.  [ProRequest] adds its [SetError] call
    when the status is not "ok". *)
Theorem plans_records shouldProxy w rpc rs :
  let run := ProRequest env shouldProxy "plans" theSession w in
  let evs := events_of w (snd run) in
  In (rpc, (Some rs, None)) (remote_calls evs) ->
  exists recs,
    Forall2 appended_for (client.Plans rs) recs /\
    mutators evs =
      match client.Plans rs with
      | [] => []
      | _ => SetStripePubKey (client.PubKey rs) :: concat recs
      end
      ++ (if client.Status rs =? "ok" then []
          else [SetError "plans" (client.Error rs)]) /\
    fst run = Returned (client.Status rs =? "ok") /\
    session (snd run) = apply_all (mutators evs) (session w).
Proof.
  intros run evs. subst evs run. intros Hin.
  destruct (GetHTTPClient env (now w) shouldProxy) as [h|e] eqn:Hc.
  - rewrite (ProRequest_plans _ _ h Hc) in *. simpl fst; simpl snd.
    simpl snd in Hin.
    match goal with
    | |- context [after ?a ?b ?c ?d ?res ?ms] =>
        destruct (observed_after w shouldProxy (inl h) c d res ms)
          as (Hr & Hm & Hs)
    end.
    rewrite Hr in Hin. rewrite Hm, Hs.
    destruct Hin as [Hin|[]]. inversion Hin as [[Hrpc Hres]].
    rewrite Hres. simpl.
    exists (map plan_calls (client.Plans rs)).
    split; [apply plans_appended |].
    rewrite <- flat_map_concat_map. unfold plans_calls.
    destruct (client.Plans rs); auto.
  - rewrite (ProRequest_no_client _ _ _ e Hc) in Hin. simpl in Hin.
    rewrite observed_connected in Hin. destruct Hin.
Qed.

(** ** fetch-user-data *)

Lemma filter_devices l :
  filter is_AddDevice (map device_call l) = map device_call l /\
  filter is_UserData (map device_call l) = [].
Proof. induction l; simpl; intuition congruence. Qed.

(** C7.  When the remote call of fetch-user-data returns a response
    without an error, the Session calls of the dispatch are: one
    [AddDevice] per device of the response, in the order of the
    response, then one [UserData] call (and, after it, the [SetError]
    call of [ProRequest] when the status is not "ok").  So append-device
    is invoked as many times as there are devices, and always before
    the single bulk update. *)
Theorem userdata_devices_then_update shouldProxy w rpc rs :
  let run := ProRequest env shouldProxy "userdata" theSession w in
  let evs := events_of w (snd run) in
  let u := client.Response_User rs in
  In (rpc, (Some rs, None)) (remote_calls evs) ->
  mutators evs =
    map device_call (client.Devices u)
    ++ [bulk_update u]
    ++ (if client.Status rs =? "ok" then []
        else [SetError "userdata" (client.Error rs)]) /\
  length (filter is_AddDevice (mutators evs))
    = length (client.Devices u) /\
  length (filter is_UserData (mutators evs)) = 1 /\
  fst run = Returned (client.Status rs =? "ok") /\
  session (snd run) = apply_all (mutators evs) (session w).
Proof.
  intros run evs u. subst evs run u. intros Hin.
  destruct (GetHTTPClient env (now w) shouldProxy) as [h|e] eqn:Hc.
  - rewrite (ProRequest_userdata _ _ h Hc) in *. simpl fst; simpl snd.
    simpl snd in Hin.
    match goal with
    | |- context [after ?a ?b ?c ?d ?res ?ms] =>
        destruct (observed_after w shouldProxy (inl h) c d res ms)
          as (Hr & Hm & Hs)
    end.
    rewrite Hr in Hin. rewrite Hm, Hs.
    destruct Hin as [Hin|[]]. inversion Hin as [[Hrpc Hres]].
    rewrite Hres. simpl. unfold userdata_calls.
    rewrite <- app_assoc.
    destruct (filter_devices (client.Devices (client.Response_User rs)))
      as [Hd Hu].
    repeat split; auto.
    + rewrite filter_app, Hd, length_app, length_map.
      destruct (client.Status rs =? "ok"); simpl; lia.
    + rewrite filter_app, Hu.
      destruct (client.Status rs =? "ok"); reflexivity.
  - rewrite (ProRequest_no_client _ _ _ e Hc) in Hin. simpl in Hin.
    rewrite observed_connected in Hin. destruct Hin.
Qed.

(** ** remove-device *)

(** C8.  [RemoveDevice] never calls a mutator of the Session.  It
    returns true iff the transport client is built and the remote
    remove-device call, made for the identity snapshot and the given
    device, returns no error and a response whose status is "ok"; it
    returns false when the client cannot be built, and when a response
    comes back with an error or with another status. *)
Theorem RemoveDevice_result shouldProxy deviceId w :
  let run := RemoveDevice env shouldProxy deviceId theSession w in
  let evs := events_of w (snd run) in
  let usr := client.userOf
               {| client.DeviceID := DeviceId (session w);
                  client.ID := UserId (session w);
                  client.Token := Token (session w) |} in
  mutators evs = [] /\
  session (snd run) = session w /\
  (fst run = Returned true <->
     exists h rs,
       GetHTTPClient env (now w) shouldProxy = inl h /\
       remote env (Datatypes.S (now w)) (client.NewClient h)
              (Client.UserLinkRemove usr deviceId) = (Some rs, None) /\
       client.Status rs = "ok") /\
  (forall e, GetHTTPClient env (now w) shouldProxy = inr e ->
     fst run = Returned false /\ remote_calls evs = []) /\
  (forall rpc rs err,
     In (rpc, (Some rs, err)) (remote_calls evs) ->
     err <> None \/ client.Status rs <> "ok" ->
     rpc = Client.UserLinkRemove usr deviceId /\
     fst run = Returned false).
Proof.
  intros run evs usr. subst evs run usr.
  unfold RemoveDevice, newRequest, proxied_GetHTTPClient. run.
  destruct (GetHTTPClient env (now w) shouldProxy) as [h|e] eqn:Hc; simpl.
  1: destruct (remote env _ _ _) as [[rs|] [e|]] eqn:Hr; simpl.
  2: destruct (client.Status rs =? "ok") eqn:Hst; simpl.
  all: erewrite events_of_app
    by (simpl; rewrite <- ?app_assoc; simpl; reflexivity).
  all: simpl.
  all: try match type of Hst with
           | _ = true => apply String.eqb_eq in Hst
           | _ = false => apply String.eqb_neq in Hst
           end.
  all: repeat split; intros;
    repeat match goal with
    | H : _ /\ _ |- _ => destruct H
    | H : exists _, _ |- _ => destruct H
    | H : _ \/ False |- _ => destruct H as [H|[]]
    | H : False |- _ => destruct H
    | H : inl _ = inl _ |- _ => inversion H; clear H; subst
    | H : (_, _) = (_, _) |- _ => inversion H; clear H; subst
    end;
    try discriminate; try congruence; eauto.
  match goal with H : _ \/ _ |- _ => destruct H; congruence end.
Qed.

(** ** Idempotency keys *)

Lemma keys_connected (w : World S) shouldProxy cres :
  keys_drawn env w (connected w shouldProxy cres)
    [EvHTTPClient shouldProxy cres] [].
Proof.
  unfold keys_drawn; simpl. repeat split; auto using NoDup_nil.
Qed.

Lemma keys_after (w : World S) shouldProxy cres pre c rpc res ms :
  prelude env (Datatypes.S (now w)) pre rpc ->
  exists d ts,
    keys_drawn env w (after (connected w shouldProxy cres) pre c rpc res ms)
      d ts.
Proof.
  intros Hp.
  exists (EvHTTPClient shouldProxy cres
            :: pre ++ EvRemote c rpc res :: map EvSession ms).
  assert (Hk : purchase_keys
                 (EvHTTPClient shouldProxy cres
                    :: pre ++ EvRemote c rpc res :: map EvSession ms)
               = purchase_keys pre ++ call_key rpc).
  { change (EvHTTPClient shouldProxy cres
              :: pre ++ EvRemote c rpc res :: map EvSession ms)
      with ([EvHTTPClient shouldProxy cres] ++ pre
              ++ [EvRemote c rpc res] ++ map EvSession ms).
    rewrite !purchase_keys_app, purchase_keys_session. simpl.
    rewrite !app_nil_r. reflexivity. }
  destruct Hp as [[-> Hkey]|[-> Hkey]].
  - exists []. unfold keys_drawn. rewrite Hk, Hkey. simpl.
    repeat split; auto using NoDup_nil.
    + rewrite <- app_assoc. reflexivity.
    + lia.
  - exists [Datatypes.S (now w)]. unfold keys_drawn. rewrite Hk, Hkey.
    simpl. repeat split.
    + rewrite <- app_assoc. reflexivity.
    + constructor; [intros [] | constructor].
    + constructor; [lia | constructor].
    + lia.
Qed.

Lemma ProRequest_keys shouldProxy command w :
  exists d ts,
    keys_drawn env w
      (snd (ProRequest env shouldProxy command theSession w)) d ts.
Proof.
  destruct (in_dec string_dec command command_names) as [Hin|Hn].
  - pose proof (ProRequest_dispatched shouldProxy command w Hin) as Hd.
    destruct (ProRequest env shouldProxy command theSession w)
      as [out w'].
    simpl. inversion Hd; subst;
      eauto using keys_after, keys_connected.
  - destruct (GetHTTPClient env (now w) shouldProxy) as [h|e] eqn:Hc.
    + rewrite (ProRequest_unknown _ _ _ h Hc Hn).
      eauto using keys_connected.
    + rewrite (ProRequest_no_client _ _ _ e Hc).
      eauto using keys_connected.
Qed.

Lemma RemoveDevice_keys shouldProxy deviceId w :
  exists d ts,
    keys_drawn env w
      (snd (RemoveDevice env shouldProxy deviceId theSession w)) d ts.
Proof.
  unfold RemoveDevice, newRequest, proxied_GetHTTPClient. run.
  destruct (GetHTTPClient env (now w) shouldProxy) as [h|e] eqn:Hc; simpl.
  1: destruct (remote env _ _ _) as [[rs|] [e|]] eqn:Hr; simpl.
  2: destruct (client.Status rs =? "ok") eqn:Hst; simpl.
  all: eexists; exists []; unfold keys_drawn; simpl;
    (split; [rewrite <- ?app_assoc; simpl; reflexivity |]);
    repeat split; auto using NoDup_nil; lia.
Qed.

Lemma enter_keys e w :
  exists d ts, keys_drawn env w (snd (enter env e w)) d ts.
Proof.
  destruct e; simpl; auto using ProRequest_keys, RemoveDevice_keys.
Qed.

Lemma keys_drawn_trans (w w1 w2 : World S) d1 ts1 d2 ts2 :
  keys_drawn env w w1 d1 ts1 ->
  keys_drawn env w1 w2 d2 ts2 ->
  keys_drawn env w w2 (d1 ++ d2) (ts1 ++ ts2).
Proof.
  intros (Ht1 & Hk1 & Hn1 & Hf1 & Hle1) (Ht2 & Hk2 & Hn2 & Hf2 & Hle2).
  unfold keys_drawn. repeat split.
  - rewrite Ht2, Ht1, app_assoc. reflexivity.
  - rewrite purchase_keys_app, map_app, Hk1, Hk2. reflexivity.
  - rewrite Forall_forall in Hf1, Hf2.
    apply NoDup_app; auto.
    intros t Hin1 Hin2.
    specialize (Hf1 t Hin1). specialize (Hf2 t Hin2). lia.
  - apply Forall_app. split.
    + eapply Forall_impl; [| exact Hf1]. simpl; intros; lia.
    + eapply Forall_impl; [| exact Hf2]. simpl; intros; lia.
  - lia.
Qed.

Lemma lifetime_keys es w :
  exists d ts, keys_drawn env w (snd (lifetime env es w)) d ts.
Proof.
  revert w. induction es as [|e es IH]; intros w; simpl.
  - exists [], []. unfold keys_drawn, ret; simpl.
    rewrite app_nil_r. repeat split; auto using NoDup_nil.
  - destruct (enter_keys e w) as (d1 & ts1 & H1).
    unfold bind. destruct (enter env e w) as [[b|why] w1]; simpl in *.
    + destruct (IH w1) as (d2 & ts2 & H2).
      eauto using keys_drawn_trans.
    + eauto.
Qed.

Lemma ProRequest_purchase_key shouldProxy w h :
  GetHTTPClient env (now w) shouldProxy = inl h ->
  purchase_keys
    (events_of w (snd (ProRequest env shouldProxy "purchase" theSession w)))
    = [NewIdempotencyKey env (Datatypes.S (now w))].
Proof.
  intros Hc. rewrite (ProRequest_unfold _ _ _ h Hc).
  change (lookup (commands env) "purchase") with (Some (purchase env)).
  unfold purchase, dispatch_request. run.
  destruct (remote env _ _ _) as [[rs|] [e|]] eqn:Hr; simpl.
  2: destruct (client.Status rs =? "ok") eqn:Hst; simpl.
  all: erewrite events_of_app
    by (simpl; rewrite <- ?app_assoc; simpl; reflexivity).
  all: reflexivity.
Qed.

(** C9.  Over a process lifetime, that is any sequence of calls of the
    two entry points, the idempotency keys attached to the outbound
    purchase requests are pairwise distinct, provided Stripe's key
    generator never returns the same key twice.  Every purchase
    dispatch whose transport client is built draws its own key and
    attaches it to its request. *)
Theorem purchase_keys_distinct es w :
  (forall i j, NewIdempotencyKey env i = NewIdempotencyKey env j -> i = j) ->
  NoDup (purchase_keys (events_of w (snd (lifetime env es w)))) /\
  (forall shouldProxy v h,
     GetHTTPClient env (now v) shouldProxy = inl h ->
     purchase_keys
       (events_of v
          (snd (ProRequest env shouldProxy "purchase" theSession v)))
       = [NewIdempotencyKey env (Datatypes.S (now v))]).
Proof.
  intros Hinj. split; [| apply ProRequest_purchase_key].
  destruct (lifetime_keys es w) as (d & ts & Ht & Hk & Hn & _).
  rewrite (events_of_app _ _ _ Ht), Hk.
  clear Ht Hk. induction Hn as [|t ts Hnot Hn IH]; simpl; constructor; auto.
  rewrite in_map_iff. intros (t' & Heq & Hin).
  apply Hinj in Heq. subst. contradiction.
Qed.

(** * Further properties *)

(** ** Exact runs of the other handlers *)

Lemma purchase_run r w :
  r_session r = Some theSession ->
  let key := NewIdempotencyKey env (now w) in
  let rpc :=
    Client.Purchase (user r) (DeviceName (session w))
      (StripeApiKey (session w))
      {| client.IdempotencyKey := key;
         client.StripeToken := StripeToken (session w);
         client.StripeEmail := Email (session w);
         client.Purchase_Plan := Plan (session w);
         client.Currency := ToLower (Currency (session w)) |} in
  let res := remote env (Datatypes.S (now w)) (proClient r) rpc in
  purchase env r w
    = (Returned res, after w [EvKey key] (proClient r) rpc res []).
Proof.
  intros Hs key rpc res. subst key rpc res.
  unfold purchase. run. rewrite Hs. simpl.
  apply f_equal2; [reflexivity |].
  world [EvKey (NewIdempotencyKey env (now w))] (@nil Mutator).
Qed.

Lemma requestcode_run r w :
  r_session r = Some theSession ->
  let rpc := Client.RequestLinkCode (user r) (DeviceName (session w)) in
  let res := remote env (now w) (proClient r) rpc in
  requestcode env r w
    = (handler_outcome res,
       after w [] (proClient r) rpc res (requestcode_calls res)).
Proof.
  intros Hs rpc res. subst rpc res.
  unfold requestcode. run. rewrite Hs. simpl.
  destruct (remote env _ _ _) as [[rs|] [e|]]; simpl;
    (apply f_equal2; [reflexivity |]).
  - world (@nil Event) (@nil Mutator).
  - world (@nil Event)
      [SetDeviceCode (client.Code (client.Response_User rs))
                     (client.ExpireAt (client.Response_User rs))].
  - world (@nil Event) (@nil Mutator).
  - world (@nil Event) (@nil Mutator).
Qed.

Lemma redeemcode_run r w :
  r_session r = Some theSession ->
  let rpc :=
    Client.RedeemLinkCode
      (client.setCode (DeviceCode (session w)) (user r))
      (DeviceName (session w)) in
  let res := remote env (now w) (proClient r) rpc in
  redeemcode env r w
    = (handler_outcome res,
       after w [] (proClient r) rpc res (redeemcode_calls res)).
Proof.
  intros Hs rpc res. subst rpc res.
  unfold redeemcode. run. rewrite Hs. simpl.
  destruct (remote env _ _ _) as [[rs|] [e|]]; simpl.
  2: destruct (client.Status rs =? "ok"); simpl.
  all: apply f_equal2; [reflexivity |].
  - world (@nil Event) (@nil Mutator).
  - world (@nil Event)
      [SetToken (client.Token (client.User_Auth (client.Response_User rs)));
       SetUserId (client.ID (client.User_Auth (client.Response_User rs)))].
  - world (@nil Event) (@nil Mutator).
  - world (@nil Event) (@nil Mutator).
  - world (@nil Event) (@nil Mutator).
Qed.

Lemma signin_run r w :
  r_session r = Some theSession ->
  let rpc :=
    Client.ApplyLinkCode
      (client.setCode (VerifyCode (session w)) (user r)) in
  let res := remote env (now w) (proClient r) rpc in
  signin env r w = (Returned res, after w [] (proClient r) rpc res []).
Proof.
  intros Hs rpc res. subst rpc res.
  unfold signin. run. rewrite Hs. simpl.
  destruct (remote env _ _ _) as [rs e]; simpl.
  apply f_equal2; [reflexivity |].
  world (@nil Event) (@nil Mutator).
Qed.

Lemma referral_run r w :
  r_session r = Some theSession ->
  let rpc :=
    Client.RedeemReferralCode (user r) (Referral (session w)) in
  let res := remote env (now w) (proClient r) rpc in
  referral env r w = (Returned res, after w [] (proClient r) rpc res []).
Proof.
  intros Hs rpc res. subst rpc res.
  unfold referral. run. rewrite Hs. simpl.
  apply f_equal2; [reflexivity |].
  world (@nil Event) (@nil Mutator).
Qed.

Lemma cancel_run r w :
  let rpc := Client.CancelSubscription (user r) in
  let res := remote env (now w) (proClient r) rpc in
  cancel env r w = (Returned res, after w [] (proClient r) rpc res []).
Proof.
  intros rpc res. subst rpc res.
  unfold cancel. run.
  apply f_equal2; [reflexivity |].
  world (@nil Event) (@nil Mutator).
Qed.

Lemma ProRequest_purchase shouldProxy w h :
  GetHTTPClient env (now w) shouldProxy = inl h ->
  let r := dispatch_request w h in
  let key := NewIdempotencyKey env (Datatypes.S (now w)) in
  let rpc :=
    Client.Purchase (user r) (DeviceName (session w))
      (StripeApiKey (session w))
      {| client.IdempotencyKey := key;
         client.StripeToken := StripeToken (session w);
         client.StripeEmail := Email (session w);
         client.Purchase_Plan := Plan (session w);
         client.Currency := ToLower (Currency (session w)) |} in
  let res := remote env (Datatypes.S (Datatypes.S (now w)))
               (proClient r) rpc in
  ProRequest env shouldProxy "purchase" theSession w
    = (verdict res,
       after (connected w shouldProxy (inl h)) [EvKey key] (proClient r)
             rpc res (error_calls "purchase" res)).
Proof.
  intros Hc r key rpc res.
  change (error_calls "purchase" res)
    with ([] ++ error_calls "purchase" res).
  eapply ProRequest_settle with (f := purchase env);
    [ exact Hc | reflexivity
    | apply (purchase_run r (connected w shouldProxy (inl h))); reflexivity
    | left; reflexivity ].
Qed.

Lemma ProRequest_requestcode shouldProxy w h :
  GetHTTPClient env (now w) shouldProxy = inl h ->
  let r := dispatch_request w h in
  let rpc := Client.RequestLinkCode (user r) (DeviceName (session w)) in
  let res := remote env (Datatypes.S (now w)) (proClient r) rpc in
  ProRequest env shouldProxy "requestcode" theSession w
    = (verdict res,
       after (connected w shouldProxy (inl h)) [] (proClient r) rpc res
             (requestcode_calls res ++ error_calls "requestcode" res)).
Proof.
  intros Hc r rpc res.
  eapply ProRequest_settle with (f := requestcode env);
    [ exact Hc | reflexivity
    | apply (requestcode_run r (connected w shouldProxy (inl h)));
      reflexivity
    | right; reflexivity ].
Qed.

Lemma ProRequest_redeemcode shouldProxy w h :
  GetHTTPClient env (now w) shouldProxy = inl h ->
  let r := dispatch_request w h in
  let rpc :=
    Client.RedeemLinkCode
      (client.setCode (DeviceCode (session w)) (user r))
      (DeviceName (session w)) in
  let res := remote env (Datatypes.S (now w)) (proClient r) rpc in
  ProRequest env shouldProxy "redeemcode" theSession w
    = (verdict res,
       after (connected w shouldProxy (inl h)) [] (proClient r) rpc res
             (redeemcode_calls res ++ error_calls "redeemcode" res)).
Proof.
  intros Hc r rpc res.
  eapply ProRequest_settle with (f := redeemcode env);
    [ exact Hc | reflexivity
    | apply (redeemcode_run r (connected w shouldProxy (inl h)));
      reflexivity
    | right; reflexivity ].
Qed.

Lemma ProRequest_signin shouldProxy w h :
  GetHTTPClient env (now w) shouldProxy = inl h ->
  let r := dispatch_request w h in
  let rpc :=
    Client.ApplyLinkCode
      (client.setCode (VerifyCode (session w)) (user r)) in
  let res := remote env (Datatypes.S (now w)) (proClient r) rpc in
  ProRequest env shouldProxy "signin" theSession w
    = (verdict res,
       after (connected w shouldProxy (inl h)) [] (proClient r) rpc res
             (error_calls "signin" res)).
Proof.
  intros Hc r rpc res.
  change (error_calls "signin" res) with ([] ++ error_calls "signin" res).
  eapply ProRequest_settle with (f := signin env);
    [ exact Hc | reflexivity
    | apply (signin_run r (connected w shouldProxy (inl h))); reflexivity
    | left; reflexivity ].
Qed.

Lemma ProRequest_referral shouldProxy w h :
  GetHTTPClient env (now w) shouldProxy = inl h ->
  let r := dispatch_request w h in
  let rpc :=
    Client.RedeemReferralCode (user r) (Referral (session w)) in
  let res := remote env (Datatypes.S (now w)) (proClient r) rpc in
  ProRequest env shouldProxy "referral" theSession w
    = (verdict res,
       after (connected w shouldProxy (inl h)) [] (proClient r) rpc res
             (error_calls "referral" res)).
Proof.
  intros Hc r rpc res.
  change (error_calls "referral" res)
    with ([] ++ error_calls "referral" res).
  eapply ProRequest_settle with (f := referral env);
    [ exact Hc | reflexivity
    | apply (referral_run r (connected w shouldProxy (inl h))); reflexivity
    | left; reflexivity ].
Qed.

Lemma ProRequest_cancel shouldProxy w h :
  GetHTTPClient env (now w) shouldProxy = inl h ->
  let r := dispatch_request w h in
  let rpc := Client.CancelSubscription (user r) in
  let res := remote env (Datatypes.S (now w)) (proClient r) rpc in
  ProRequest env shouldProxy "cancel" theSession w
    = (verdict res,
       after (connected w shouldProxy (inl h)) [] (proClient r) rpc res
             (error_calls "cancel" res)).
Proof.
  intros Hc r rpc res.
  change (error_calls "cancel" res) with ([] ++ error_calls "cancel" res).
  eapply ProRequest_settle with (f := cancel env);
    [ exact Hc | reflexivity
    | apply (cancel_run r (connected w shouldProxy (inl h)))
    | left; reflexivity ].
Qed.

(** ** The remote call of a dispatch *)

Lemma remote_events_session ms : remote_events (map EvSession ms) = [].
Proof. induction ms; simpl; auto. Qed.

Lemma no_key_in_session_calls k ms : ~ In (EvKey k) (map EvSession ms).
Proof. induction ms; simpl; intuition discriminate. Qed.

Ltac by_command Hin Hc h :=
  simpl in Hin;
  destruct Hin as [<-|[<-|[<-|[<-|[<-|[<-|[<-|[<-|[<-|[]]]]]]]]]];
  [ rewrite (ProRequest_newuser _ _ h Hc)
  | rewrite (ProRequest_purchase _ _ h Hc)
  | rewrite (ProRequest_plans _ _ h Hc)
  | rewrite (ProRequest_signin _ _ h Hc)
  | rewrite (ProRequest_redeemcode _ _ h Hc)
  | rewrite (ProRequest_requestcode _ _ h Hc)
  | rewrite (ProRequest_userdata _ _ h Hc)
  | rewrite (ProRequest_referral _ _ h Hc)
  | rewrite (ProRequest_cancel _ _ h Hc) ].

(** The single remote call of a dispatch of a registered command. *)
Lemma dispatch_remote_event shouldProxy command w h :
  In command command_names ->
  GetHTTPClient env (now w) shouldProxy = inl h ->
  let evs :=
    events_of w (snd (ProRequest env shouldProxy command theSession w)) in
  exists c rpc res,
    remote_events evs = [(c, rpc, res)] /\
    c = client.SetLocale (Locale (session w)) (client.NewClient h) /\
    client.User_Auth (call_user rpc) = snapshot (session w) /\
    In (command, call_method rpc) command_methods /\
    client.Code (call_user rpc) =
      (if command =? "signin" then VerifyCode (session w)
       else if command =? "redeemcode" then DeviceCode (session w)
       else "") /\
    (forall k, In (EvKey k) evs -> command = "purchase").
Proof.
  intros Hin Hc evs. subst evs.
  by_command Hin Hc h; simpl snd; rewrite events_after; simpl;
    rewrite remote_events_session; do 3 eexists;
    (split; [reflexivity |]); simpl; repeat split; auto 10.
  all: intros k [Hk|Hk]; try discriminate;
    try (destruct Hk as [Hk|Hk]; try discriminate);
    try (destruct Hk as [Hk|Hk]; try discriminate);
    exfalso; eapply no_key_in_session_calls; eauto.
Qed.

(** X1.  Once the transport client is built, a dispatch of a registered
    command makes exactly one remote call; it is made on the client built
    on that transport, with the locale of the Session, and for the
    identity (device id, user id, token) that the Session held when the
    dispatch started, whatever the handler writes afterwards. *)
Theorem dispatch_sends_snapshot shouldProxy command w h :
  In command command_names ->
  GetHTTPClient env (now w) shouldProxy = inl h ->
  let evs :=
    events_of w (snd (ProRequest env shouldProxy command theSession w)) in
  exists c rpc res,
    remote_events evs = [(c, rpc, res)] /\
    client.http c = h /\
    client.locale c = Locale (session w) /\
    client.User_Auth (call_user rpc) = snapshot (session w).
Proof.
  intros Hin Hc evs.
  destruct (dispatch_remote_event shouldProxy command w h Hin Hc)
    as (c & rpc & res & Hev & -> & Hauth & _).
  exists (client.SetLocale (Locale (session w)) (client.NewClient h)),
    rpc, res.
  auto.
Qed.

(** X2.  Every command of the registry invokes its own remote method:
    the method of the single remote call of the dispatch is the one that
    [command_methods] lists for the command. *)
Theorem dispatch_calls_own_method shouldProxy command w h :
  In command command_names ->
  GetHTTPClient env (now w) shouldProxy = inl h ->
  let evs :=
    events_of w (snd (ProRequest env shouldProxy command theSession w)) in
  exists c rpc res,
    remote_events evs = [(c, rpc, res)] /\
    In (command, call_method rpc) command_methods.
Proof.
  intros Hin Hc evs.
  destruct (dispatch_remote_event shouldProxy command w h Hin Hc)
    as (c & rpc & res & Hev & _ & _ & Hm & _).
  exists c, rpc, res. auto.
Qed.

(** X3.  The code sent in the user of the remote call is the
    verification code of the Session for signin, the device code of the
    Session for redeemcode, and empty for every other command. *)
Theorem link_code_sent shouldProxy command w h :
  In command command_names ->
  GetHTTPClient env (now w) shouldProxy = inl h ->
  let evs :=
    events_of w (snd (ProRequest env shouldProxy command theSession w)) in
  exists c rpc res,
    remote_events evs = [(c, rpc, res)] /\
    client.Code (call_user rpc) =
      (if command =? "signin" then VerifyCode (session w)
       else if command =? "redeemcode" then DeviceCode (session w)
       else "").
Proof.
  intros Hin Hc evs.
  destruct (dispatch_remote_event shouldProxy command w h Hin Hc)
    as (c & rpc & res & Hev & _ & _ & _ & Hcode & _).
  exists c, rpc, res. auto.
Qed.

(** X4.  When the remote call of a registered command returns neither a
    response nor an error, the dispatch panics with a nil dereference (in
    the handler or in the success test); no Session call has been made. *)
Theorem ProRequest_faults_without_response_and_error
    shouldProxy command w rpc :
  In command command_names ->
  let run := ProRequest env shouldProxy command theSession w in
  let evs := events_of w (snd run) in
  In (rpc, (None, None)) (remote_calls evs) ->
  fst run = Panicked nil_dereference /\
  mutators evs = [] /\
  session (snd run) = session w.
Proof.
  intros Hin run evs. subst evs run.
  pose proof (ProRequest_dispatched shouldProxy command w Hin) as Hd.
  destruct (ProRequest env shouldProxy command theSession w) as [out w'].
  apply dispatched_observed in Hd. simpl. intros Hcall.
  destruct Hd as [(e' & Hc & -> & Hs & Hm & Hr)
                 |(h & rpc' & res' & err & ms & Hc & Hr & Hm & Hs & Hcase)].
  - rewrite Hr in Hcall. destruct Hcall.
  - rewrite Hr in Hcall. destruct Hcall as [Heq|[]].
    inversion Heq; subst rpc' res' err. rewrite Hm, Hs.
    destruct Hcase as [-> ->]. auto.
Qed.

(** X5.  When the transport client cannot be built, both entry points
    return false for every argument, also for a command name outside the
    registry: the only event is the failed construction, the Session is
    as before. *)
Theorem transport_failure_returns_false shouldProxy w e :
  GetHTTPClient env (now w) shouldProxy = inr e ->
  (forall command,
     let run := ProRequest env shouldProxy command theSession w in
     fst run = Returned false /\
     events_of w (snd run) = [EvHTTPClient shouldProxy (inr e)] /\
     session (snd run) = session w) /\
  (forall deviceId,
     let run := RemoveDevice env shouldProxy deviceId theSession w in
     fst run = Returned false /\
     events_of w (snd run) = [EvHTTPClient shouldProxy (inr e)] /\
     session (snd run) = session w).
Proof.
  intros Hc. split.
  - intros command run. subst run.
    rewrite (ProRequest_no_client _ _ _ e Hc). simpl.
    rewrite events_connected. auto.
  - intros deviceId run. subst run.
    unfold RemoveDevice, newRequest, proxied_GetHTTPClient. run.
    rewrite Hc. simpl.
    erewrite events_of_app by (simpl; reflexivity). auto.
Qed.

(** X6.  [RemoveDevice] panics whenever the remote call returns no
    response, with or without an error: its log line reads the status of
    the nil response.  The Session is as before. *)
Theorem RemoveDevice_faults_on_nil_response shouldProxy deviceId w rpc err :
  let run := RemoveDevice env shouldProxy deviceId theSession w in
  let evs := events_of w (snd run) in
  In (rpc, (None, err)) (remote_calls evs) ->
  fst run = Panicked nil_dereference /\
  mutators evs = [] /\
  session (snd run) = session w.
Proof.
  intros run evs. subst evs run.
  unfold RemoveDevice, newRequest, proxied_GetHTTPClient. run.
  destruct (GetHTTPClient env (now w) shouldProxy) as [h|e] eqn:Hc; simpl.
  1: destruct (remote env _ _ _) as [[rs|] [e|]] eqn:Hr; simpl.
  2: destruct (client.Status rs =? "ok") eqn:Hst; simpl.
  all: erewrite events_of_app
    by (simpl; rewrite <- ?app_assoc; simpl; reflexivity).
  all: simpl; intros Hin;
    repeat match goal with
    | H : _ \/ _ |- _ => destruct H
    | H : False |- _ => destruct H
    | H : (_, _) = (_, _) |- _ => inversion H; clear H
    end; auto.
Qed.

(** X7.  Once the transport client is built, [RemoveDevice] makes exactly
    one remote call: UserLinkRemove for the identity of the Session and
    the given device, on the client as [NewClient] built it ([SetLocale]
    is not called on this path).  It draws no idempotency key. *)
Theorem RemoveDevice_remote_call shouldProxy deviceId w h :
  GetHTTPClient env (now w) shouldProxy = inl h ->
  let run := RemoveDevice env shouldProxy deviceId theSession w in
  let evs := events_of w (snd run) in
  exists res,
    remote_events evs
      = [(client.NewClient h,
          Client.UserLinkRemove (client.userOf (snapshot (session w)))
                                deviceId,
          res)] /\
    purchase_keys evs = [] /\
    (forall k, ~ In (EvKey k) evs).
Proof.
  intros Hc run evs. subst evs run.
  unfold RemoveDevice, newRequest, proxied_GetHTTPClient. run.
  rewrite Hc. simpl.
  destruct (remote env _ _ _) as [[rs|] [e|]] eqn:Hr; simpl.
  2: destruct (client.Status rs =? "ok") eqn:Hst; simpl.
  all: erewrite events_of_app
    by (simpl; rewrite <- ?app_assoc; simpl; reflexivity).
  all: simpl; eexists; repeat split; try reflexivity.
  all: intros k Hk; simpl in Hk; intuition discriminate.
Qed.

(** ** The Session calls of a dispatch *)

Lemma plan_calls_quiet plan :
  existsb is_SetError (plan_calls plan) = false /\
  filter is_SetStripePubKey (plan_calls plan) = [] /\
  length (filter is_AddPlan (plan_calls plan)) <= 1.
Proof.
  unfold plan_calls.
  destruct (first_entry (client.Price plan)) as [currency price].
  destruct (negb (currency =? "")); simpl; auto.
Qed.

Lemma plans_calls_quiet rs :
  existsb is_SetError (plans_calls rs) = false /\
  length (filter is_SetStripePubKey (plans_calls rs)) <= 1 /\
  length (filter is_AddPlan (plans_calls rs)) <= length (client.Plans rs).
Proof.
  unfold plans_calls.
  assert (H : forall ps,
    existsb is_SetError (flat_map plan_calls ps) = false /\
    filter is_SetStripePubKey (flat_map plan_calls ps) = [] /\
    length (filter is_AddPlan (flat_map plan_calls ps)) <= length ps).
  { induction ps as [|p ps (IH1 & IH2 & IH3)]; simpl; auto.
    destruct (plan_calls_quiet p) as (H1 & H2 & H3).
    rewrite existsb_app, !filter_app, length_app, H1, H2, IH1, IH2.
    simpl. repeat split; auto. lia. }
  destruct (client.Plans rs) as [|p ps] eqn:Hps; simpl; auto.
  destruct (H (p :: ps)) as (H1 & H2 & H3). simpl in H1, H2, H3.
  rewrite H1, H2. simpl. repeat split; auto.
Qed.

Lemma userdata_calls_quiet rs :
  existsb is_SetError (userdata_calls rs) = false.
Proof.
  unfold userdata_calls. rewrite existsb_app. simpl.
  induction (client.Devices (client.Response_User rs)); simpl; auto.
Qed.

Lemma error_calls_cases command res :
  error_calls command res = [] \/
  exists message, error_calls command res = [SetError command message].
Proof.
  destruct res as [[rs|] [e|]]; simpl; eauto.
  destruct (client.Status rs =? "ok"); eauto.
Qed.

Lemma error_calls_success command res :
  verdict res = Returned true -> error_calls command res = [].
Proof.
  destruct res as [[rs|] [e|]]; simpl; try discriminate; auto.
  destruct (client.Status rs =? "ok"); auto; discriminate.
Qed.

Lemma mutators_after (w : World S) shouldProxy cres pre c rpc res ms :
  mutators pre = [] ->
  mutators
    (events_of w (after (connected w shouldProxy cres) pre c rpc res ms))
    = ms.
Proof.
  intros Hpre. rewrite events_after.
  change (EvHTTPClient shouldProxy cres
            :: pre ++ EvRemote c rpc res :: map EvSession ms)
    with ([EvHTTPClient shouldProxy cres] ++ pre
            ++ [EvRemote c rpc res] ++ map EvSession ms).
  rewrite !mutators_app, Hpre, mutators_session. reflexivity.
Qed.

(** The Session calls of a dispatch of a registered command: those of the
    handler, which never sets the error, then those of the success
    test. *)
Lemma dispatch_session_calls shouldProxy command w h :
  In command command_names ->
  GetHTTPClient env (now w) shouldProxy = inl h ->
  let run := ProRequest env shouldProxy command theSession w in
  let evs := events_of w (snd run) in
  exists res ms,
    fst run = verdict res /\
    mutators evs = ms ++ error_calls command res /\
    session (snd run) = apply_all (ms ++ error_calls command res)
                                  (session w) /\
    existsb is_SetError ms = false /\
    (In command read_only_commands -> ms = []).
Proof.
  intros Hin Hc run evs. subst evs run.
  by_command Hin Hc h; simpl fst; simpl snd;
    rewrite mutators_after by reflexivity;
    match goal with
    | |- context [verdict ?r] => exists r
    end.
  - eexists. repeat split.
    + destruct (remote env _ _ _) as [[rs|] [e|]]; reflexivity.
    + simpl. intuition discriminate.
  - exists []. repeat split.
  - eexists. repeat split.
    + destruct (remote env _ _ _) as [[rs|] [e|]]; try reflexivity.
      apply plans_calls_quiet.
    + simpl. intuition discriminate.
  - exists []. repeat split.
  - eexists. repeat split.
    + destruct (remote env _ _ _) as [[rs|] [e|]]; try reflexivity.
      simpl. destruct (client.Status rs =? "ok"); reflexivity.
    + simpl. intuition discriminate.
  - eexists. repeat split.
    + destruct (remote env _ _ _) as [[rs|] [e|]]; reflexivity.
    + simpl. intuition discriminate.
  - eexists. repeat split.
    + destruct (remote env _ _ _) as [[rs|] [e|]]; try reflexivity.
      apply userdata_calls_quiet.
    + simpl. intuition discriminate.
  - exists []. repeat split.
  - exists []. repeat split.
Qed.

(** X8.  A dispatch that returns true has not called [SetError]: a
    success never writes the error slot of the Session (an error recorded
    by an earlier dispatch is not cleared either). *)
Theorem success_leaves_error_slot shouldProxy command w :
  In command command_names ->
  let run := ProRequest env shouldProxy command theSession w in
  let evs := events_of w (snd run) in
  fst run = Returned true ->
  existsb is_SetError (mutators evs) = false.
Proof.
  intros Hin run evs. subst evs run.
  destruct (GetHTTPClient env (now w) shouldProxy) as [h|e] eqn:Hc.
  - destruct (dispatch_session_calls shouldProxy command w h Hin Hc)
      as (res & ms & Hv & Hm & _ & Hq & _).
    intros Hok. rewrite Hm, existsb_app, Hq.
    rewrite error_calls_success by congruence. reflexivity.
  - rewrite (ProRequest_no_client _ _ _ e Hc). discriminate.
Qed.

(** X9.  The handlers of purchase, signin, referral and cancel make no
    Session call: the only Session call of such a dispatch is the
    [SetError] of a failure, and a dispatch that returns true leaves the
    Session as it was. *)
Theorem read_only_commands_frame shouldProxy command w :
  In command read_only_commands ->
  let run := ProRequest env shouldProxy command theSession w in
  let evs := events_of w (snd run) in
  (mutators evs = [] \/
   exists message, mutators evs = [SetError command message]) /\
  (fst run = Returned true ->
   mutators evs = [] /\ session (snd run) = session w).
Proof.
  intros Hro run evs. subst evs run.
  assert (Hin : In command command_names).
  { simpl in Hro. simpl. intuition. }
  destruct (GetHTTPClient env (now w) shouldProxy) as [h|e] eqn:Hc.
  - destruct (dispatch_session_calls shouldProxy command w h Hin Hc)
      as (res & ms & Hv & Hm & Hs & _ & Hnil).
    rewrite (Hnil Hro) in *. simpl in Hm, Hs. rewrite Hm, Hs. split.
    + apply error_calls_cases.
    + intros Hok. rewrite error_calls_success by congruence. auto.
  - rewrite (ProRequest_no_client _ _ _ e Hc). simpl.
    rewrite events_connected. simpl. split; auto; discriminate.
Qed.

(** X10.  [requestcode] stores the link code and its expiry as soon as
    the remote call returns no error, whatever the status of the
    response: with a status other than "ok" the dispatch returns false
    and the device code has been written all the same. *)
Theorem requestcode_writes_device_code shouldProxy w rpc rs :
  let run := ProRequest env shouldProxy "requestcode" theSession w in
  let evs := events_of w (snd run) in
  let u := client.Response_User rs in
  In (rpc, (Some rs, None)) (remote_calls evs) ->
  mutators evs =
    SetDeviceCode (client.Code u) (client.ExpireAt u)
      :: (if client.Status rs =? "ok" then []
          else [SetError "requestcode" (client.Error rs)]) /\
  fst run = Returned (client.Status rs =? "ok") /\
  session (snd run) = apply_all (mutators evs) (session w).
Proof.
  intros run evs u. subst evs run u. intros Hin.
  destruct (GetHTTPClient env (now w) shouldProxy) as [h|e] eqn:Hc.
  - rewrite (ProRequest_requestcode _ _ h Hc) in *. simpl fst; simpl snd.
    simpl snd in Hin.
    match goal with
    | |- context [after ?a ?b ?c ?d ?res ?ms] =>
        destruct (observed_after w shouldProxy (inl h) c d res ms)
          as (Hr & Hm & Hs)
    end.
    rewrite Hr in Hin. rewrite Hm, Hs.
    destruct Hin as [Hin|[]]. inversion Hin as [[Hrpc Hres]].
    rewrite Hres. simpl. auto.
  - rewrite (ProRequest_no_client _ _ _ e Hc) in Hin. simpl in Hin.
    rewrite observed_connected in Hin. destruct Hin.
Qed.

(** ** purchase *)




(** X12.  Idempotency keys are drawn by purchase dispatches only: a
    dispatch of any other command name draws none. *)
Theorem keys_only_for_purchase shouldProxy command w k :
  let evs :=
    events_of w (snd (ProRequest env shouldProxy command theSession w)) in
  In (EvKey k) evs -> command = "purchase".
Proof.
  intros evs. subst evs.
  destruct (GetHTTPClient env (now w) shouldProxy) as [h|e] eqn:Hc.
  - destruct (in_dec string_dec command command_names) as [Hin|Hn].
    + destruct (dispatch_remote_event shouldProxy command w h Hin Hc)
        as (c & rpc & res & _ & _ & _ & _ & _ & Hk).
      apply Hk.
    + rewrite (ProRequest_unknown _ _ _ h Hc Hn). simpl.
      rewrite events_connected. simpl. intuition discriminate.
  - rewrite (ProRequest_no_client _ _ _ e Hc). simpl.
    rewrite events_connected. simpl. intuition discriminate.
Qed.

(** ** list-plans *)

Lemma plan_calls_origin plan id d c b y p :
  In (AddPlan id d c b y p) (plan_calls plan) ->
  c <> "" /\
  id = client.Plan_Id plan /\ d = client.Description plan /\
  b = client.BestValue plan /\
  y = client.Years (client.Duration plan) /\
  In (c, p) (client.Price plan).
Proof.
  unfold plan_calls, first_entry.
  destruct (client.Price plan) as [|[currency price] rest] eqn:Hp.
  - simpl. intros [].
  - destruct (String.eqb_spec currency "") as [->|Hne]; simpl.
    + intros [].
    + intros [Heq|[]]. inversion Heq; subst. repeat split; auto.
Qed.

(** X13.  [plans] never invents a plan record: every [AddPlan] call of
    a list-plans dispatch has the id, description, best-value flag and
    duration of a plan of the response, and a currency/price pair of that
    plan with a non-empty currency.  There are at most as many [AddPlan]
    calls as plans, and at most one [SetStripePubKey] call. *)
Theorem plans_records_come_from_response shouldProxy w rpc rs :
  let run := ProRequest env shouldProxy "plans" theSession w in
  let evs := events_of w (snd run) in
  In (rpc, (Some rs, None)) (remote_calls evs) ->
  (forall id d c b y p,
     In (AddPlan id d c b y p) (mutators evs) ->
     c <> "" /\
     exists plan,
       In plan (client.Plans rs) /\
       id = client.Plan_Id plan /\ d = client.Description plan /\
       b = client.BestValue plan /\
       y = client.Years (client.Duration plan) /\
       In (c, p) (client.Price plan)) /\
  length (filter is_AddPlan (mutators evs)) <= length (client.Plans rs) /\
  length (filter is_SetStripePubKey (mutators evs)) <= 1.
Proof.
  intros run evs. subst evs run. intros Hin.
  destruct (GetHTTPClient env (now w) shouldProxy) as [h|e] eqn:Hc.
  - rewrite (ProRequest_plans _ _ h Hc) in *. simpl snd in *.
    match goal with
    | |- context [after ?a ?b ?c ?d ?res ?ms] =>
        destruct (observed_after w shouldProxy (inl h) c d res ms)
          as (Hr & Hm & Hs)
    end.
    rewrite Hr in Hin. rewrite Hm.
    destruct Hin as [Hin|[]]. inversion Hin as [[Hrpc Hres]].
    rewrite Hres. simpl plans_writes.
    destruct (plans_calls_quiet rs) as (_ & Hkey & Hadd).
    assert (Herr : filter is_AddPlan (error_calls "plans" (Some rs, None))
                   = [] /\
                   filter is_SetStripePubKey
                     (error_calls "plans" (Some rs, None)) = []).
    { simpl. destruct (client.Status rs =? "ok"); auto. }
    destruct Herr as [He1 He2].
    rewrite !filter_app, !length_app, He1, He2. simpl.
    split; [| split; lia].
    intros pid d cur b y p Hcall. apply in_app_or in Hcall.
    destruct Hcall as [Hcall|Hcall].
    + unfold plans_calls in Hcall.
      destruct (client.Plans rs) as [|p0 ps]; [destruct Hcall |].
      destruct Hcall as [Hcall|Hcall]; [discriminate |].
      apply in_flat_map in Hcall. destruct Hcall as (plan & Hplan & Hcall).
      apply plan_calls_origin in Hcall.
      destruct Hcall as (Hc1 & Hc2). split; eauto.
    + simpl in Hcall. destruct (client.Status rs =? "ok");
        simpl in Hcall; intuition discriminate.
  - rewrite (ProRequest_no_client _ _ _ e Hc) in Hin. simpl in Hin.
    rewrite observed_connected in Hin. destruct Hin.
Qed.

(** ** create-user *)

(** X15.  When the remote call of create-user returns no error and a
    response whose status is "ok", the dispatch returns true and its
    Session calls are [SetUserId], [SetToken] and [SetCode], in this
    order, with the user id, the token and the referral code of the
    response. *)
Theorem newuser_success_writes_identity shouldProxy w rpc rs :
  let run := ProRequest env shouldProxy "newuser" theSession w in
  let evs := events_of w (snd run) in
  let u := client.Response_User rs in
  let writes :=
    [ SetUserId (client.ID (client.User_Auth u));
      SetToken (client.Token (client.User_Auth u));
      SetCode (client.Referral u) ] in
  In (rpc, (Some rs, None)) (remote_calls evs) ->
  client.Status rs = "ok" ->
  fst run = Returned true /\
  mutators evs = writes /\
  session (snd run) = apply_all writes (session w).
Proof.
  intros run evs u writes. subst run evs u writes. intros Hin Hst.
  destruct (GetHTTPClient env (now w) shouldProxy) as [h|e] eqn:Hc.
  - rewrite (ProRequest_newuser _ _ h Hc) in *. simpl fst; simpl snd.
    simpl snd in Hin.
    match goal with
    | |- context [after ?a ?b ?c ?d ?res ?ms] =>
        destruct (observed_after w shouldProxy (inl h) c d res ms)
          as (Hr & Hm & Hs)
    end.
    rewrite Hr in Hin. rewrite Hm, Hs.
    destruct Hin as [Hin|[]]. inversion Hin as [[Hrpc Hres]].
    rewrite Hres. simpl. rewrite Hst. simpl. auto.
  - rewrite (ProRequest_no_client _ _ _ e Hc) in Hin. simpl in Hin.
    rewrite observed_connected in Hin. destruct Hin.
Qed.

(** ** Order and number of the interactions *)

(** X16.  In a dispatch of a registered command every Session call comes
    after the remote call: the events are the construction of the
    transport client, possibly the draw of a key, the remote call, and
    then Session calls only.  Nothing is written to the Session before
    the remote call has returned. *)
Theorem session_calls_follow_remote_call shouldProxy command w h :
  In command command_names ->
  GetHTTPClient env (now w) shouldProxy = inl h ->
  let evs :=
    events_of w (snd (ProRequest env shouldProxy command theSession w)) in
  exists before c rpc res ms,
    evs = before ++ EvRemote c rpc res :: map EvSession ms /\
    mutators before = [] /\
    remote_calls before = [].
Proof.
  intros Hin Hc evs. subst evs.
  pose proof (ProRequest_dispatched shouldProxy command w Hin) as Hd.
  destruct (ProRequest env shouldProxy command theSession w) as [out w'].
  simpl.
  inversion Hd as [e He | h' pre c rpc rs ms Hc' Hp Hst
                  | h' pre c rpc rs err ms Hc' Hp Hbad Hms
                  | h' pre c rpc e Hc' Hp | h' pre c rpc Hc' Hp];
    subst; try congruence.
  all: rewrite events_after;
    destruct (prelude_quiet _ _ _ Hp) as (Hm & Hr & _);
    exists (EvHTTPClient shouldProxy (inl h') :: pre); do 4 eexists;
    (split; [reflexivity |]); simpl; auto.
Qed.

(** X17.  No entry point retries: a call of [ProRequest], for any command
    name, and a call of [RemoveDevice] make at most one remote call. *)
Theorem at_most_one_remote_call shouldProxy w :
  (forall command,
     length (remote_calls
               (events_of w
                  (snd (ProRequest env shouldProxy command theSession w))))
       <= 1) /\
  (forall deviceId,
     length (remote_calls
               (events_of w
                  (snd (RemoveDevice env shouldProxy deviceId theSession
                          w))))
       <= 1).
Proof.
  split.
  - intros command.
    destruct (in_dec string_dec command command_names) as [Hin|Hn].
    + pose proof (ProRequest_dispatched shouldProxy command w Hin) as Hd.
      destruct (ProRequest env shouldProxy command theSession w)
        as [out w'].
      apply dispatched_observed in Hd. simpl.
      destruct Hd as [(e & _ & _ & _ & _ & Hr)
                     |(h & rpc & res & err & ms & _ & Hr & _)];
        rewrite Hr; simpl; lia.
    + destruct (GetHTTPClient env (now w) shouldProxy) as [h|e] eqn:Hc.
      * rewrite (ProRequest_unknown _ _ _ h Hc Hn). simpl.
        rewrite observed_connected. simpl; lia.
      * rewrite (ProRequest_no_client _ _ _ e Hc). simpl.
        rewrite observed_connected. simpl; lia.
  - intros deviceId.
    unfold RemoveDevice, newRequest, proxied_GetHTTPClient. run.
    destruct (GetHTTPClient env (now w) shouldProxy) as [h|e] eqn:Hc; simpl.
    1: destruct (remote env _ _ _) as [[rs|] [e|]] eqn:Hr; simpl.
    2: destruct (client.Status rs =? "ok") eqn:Hst; simpl.
    all: erewrite events_of_app
      by (simpl; rewrite <- ?app_assoc; simpl; reflexivity).
    all: simpl; lia.
Qed.

End Facts.

(** * The in-memory Session *)

(** Calls other than [SetUserId], [SetToken] and [SetCode] leave the user
    id, the token and the referral code of the in-memory Session alone. *)
Lemma identity_frame ms (s : MemSession) :
  existsb writes_identity ms = false ->
  m_userId (apply_all ms s) = m_userId s /\
  m_token (apply_all ms s) = m_token s /\
  m_code (apply_all ms s) = m_code s.
Proof.
  revert s. induction ms as [|m ms IH]; intros s; simpl; auto.
  intros H. apply orb_false_iff in H. destruct H as [Hm Hms].
  destruct (IH (mem_mutate m s) Hms) as (H1 & H2 & H3).
  change (apply_all (m :: ms) s) with (apply_all ms (mem_mutate m s)).
  rewrite H1, H2, H3.
  destruct s; destruct m; simpl in *; auto; discriminate.
Qed.

(** [SetError] fills the error slot of the in-memory Session. *)
Lemma error_slot command message (s : MemSession) :
  m_error (mutate (SetError command message) s) = Some (command, message).
Proof. destruct s; reflexivity. Qed.

Lemma strokes_injective i j : strokes i = strokes j -> i = j.
Proof.
  revert j. induction i as [|i IH]; intros [|j]; simpl; try discriminate.
  - reflexivity.
  - intros H. inversion H. f_equal. auto.
Qed.

(** X14.  The identity written by a successful create-user or
    redeem-link-code dispatch is the identity that the next dispatch
    sends: its remote call carries the user id and the token of that
    response, and the device id the Session had all along. *)
Theorem new_identity_is_sent_next env (w : World MemSession)
    p1 p2 command1 command2 rpc rs h2 :
  command1 = "newuser" \/ command1 = "redeemcode" ->
  let run1 := ProRequest env p1 command1 theSession w in
  fst run1 = Returned true ->
  In (rpc, (Some rs, None)) (remote_calls (events_of w (snd run1))) ->
  In command2 command_names ->
  GetHTTPClient env (now (snd run1)) p2 = inl h2 ->
  let evs2 :=
    events_of (snd run1)
      (snd (ProRequest env p2 command2 theSession (snd run1))) in
  exists c rpc2 res2,
    remote_events evs2 = [(c, rpc2, res2)] /\
    client.User_Auth (call_user rpc2) =
      {| client.DeviceID := DeviceId (session w);
         client.ID := client.ID (client.User_Auth (client.Response_User rs));
         client.Token :=
           client.Token (client.User_Auth (client.Response_User rs)) |}.
Proof.
  intros Hcmd run1 Hok Hcall Hin2 Hc2 evs2.
  destruct (dispatch_remote_event env p2 command2 (snd run1) h2 Hin2 Hc2)
    as (c & rpc2 & res2 & Hev & _ & Hauth & _).
  exists c, rpc2, res2. split; [exact Hev |]. rewrite Hauth.
  clear Hev Hauth Hc2 evs2. subst run1.
  destruct (GetHTTPClient env (now w) p1) as [h|e] eqn:Hc1.
  - destruct Hcmd as [-> | ->].
    + rewrite (ProRequest_newuser env _ _ h Hc1) in *.
      simpl fst in Hok. simpl snd in *.
      match type of Hcall with
      | context [after ?a ?b ?c ?d ?res ?ms] =>
          destruct (observed_after w p1 (inl h) c d res ms)
            as (Hr & Hm & Hs)
      end.
      rewrite Hr in Hcall. rewrite Hs.
      destruct Hcall as [Hcall|[]]. inversion Hcall as [[Hrpc Hres]].
      rewrite Hres in *. simpl in Hok. inversion Hok as [Hst].
      simpl. rewrite Hst. simpl.
      destruct (session w). reflexivity.
    + rewrite (ProRequest_redeemcode env _ _ h Hc1) in *.
      simpl fst in Hok. simpl snd in *.
      match type of Hcall with
      | context [after ?a ?b ?c ?d ?res ?ms] =>
          destruct (observed_after w p1 (inl h) c d res ms)
            as (Hr & Hm & Hs)
      end.
      rewrite Hr in Hcall. rewrite Hs.
      destruct Hcall as [Hcall|[]]. inversion Hcall as [[Hrpc Hres]].
      rewrite Hres in *. simpl in Hok. inversion Hok as [Hst].
      simpl. rewrite Hst. simpl.
      destruct (session w). reflexivity.
  - rewrite (ProRequest_no_client env _ _ _ e Hc1) in Hok. discriminate.
Qed.

(** * Scenarios *)

(** create-user answered with status "ok": true, and the Session holds the
    new identity. *)
Example scenario_create_user :
  let run := ProRequest (steady online answer_ok) true "newuser" theSession
               sample_world in
  fst run = Returned true /\
  m_userId (session (snd run)) = 42%Z /\
  m_token (session (snd run)) = "T" /\
  m_code (session (snd run)) = "R1".
Proof. vm_compute. auto. Qed.

(** purchase refused by the server: false, and the error slot holds the
    command and the message. *)
Example scenario_purchase_refused :
  let run := ProRequest (steady online answer_refused) true "purchase"
               theSession sample_world in
  fst run = Returned false /\
  m_error (session (snd run)) = Some ("purchase", "card_declined").
Proof. vm_compute. auto. Qed.

(** remove-device answered with another status than "ok": false, Session
    untouched. *)
Example scenario_remove_device_failed :
  let run := RemoveDevice (steady online answer_refused) true "d1"
               theSession sample_world in
  fst run = Returned false /\ session (snd run) = sample_session.
Proof. vm_compute. auto. Qed.

(** [RemoveDevice] evaluates [res.Status] for its log line also when the
    remote call returned an error and no response: it faults there. *)
Example RemoveDevice_faults_without_response :
  fst (RemoveDevice (steady online answer_timeout) true "d1" theSession
         sample_world)
  = Panicked nil_dereference.
Proof. reflexivity. Qed.

(** The first entry visited decides the record of a plan. *)
Example scenario_plans :
  mutators
    (trace (snd (ProRequest (steady online answer_plans) true "plans"
                   theSession sample_world)))
  = [ SetStripePubKey "pk_test";
      AddPlan "1y" "One year" "eur" true 1%Z 9%Z ].
Proof. reflexivity. Qed.

(** * Instances at concrete inputs *)

Lemma ProRequest_unknown_command_faults_witness :
  ~ In "bogus-command" command_names /\
  GetHTTPClient (steady online answer_ok) (now sample_world) true
    = inl (client.httpClient 0) /\
  (let run := ProRequest (steady online answer_ok) true "bogus-command"
                theSession sample_world in
   fst run = Panicked nil_dereference /\
   fst run <> Returned false /\
   session (snd run) = session sample_world /\
   mutators (events_of sample_world (snd run)) = []).
Proof.
  assert (Hn : ~ In "bogus-command" command_names)
    by (simpl; intuition discriminate).
  split; [exact Hn |]. split; [reflexivity |].
  exact (ProRequest_unknown_command_faults (steady online answer_ok) true
           "bogus-command" sample_world (client.httpClient 0) Hn eq_refl).
Defined.

Lemma newuser_writes_survive_failure_witness :
  let run := ProRequest (steady online answer_refused) true "newuser"
               theSession sample_world in
  let evs := events_of sample_world (snd run) in
  let rs := sample_response "error" "card_declined" [] in
  let writes := [ SetUserId 42%Z; SetToken "T"; SetCode "R1";
                  SetError "newuser" "card_declined" ] in
  In (Client.UserCreate sample_snapshot, (Some rs, None))
     (remote_calls evs) /\
  client.Status rs <> "ok" /\
  fst run = Returned false /\
  mutators evs = writes /\
  session (snd run) = apply_all writes sample_session.
Proof.
  intros run evs rs writes.
  assert (Hin : In (Client.UserCreate sample_snapshot, (Some rs, None))
                   (remote_calls evs)) by (left; reflexivity).
  assert (Hst : client.Status rs <> "ok") by discriminate.
  split; [exact Hin |]. split; [exact Hst |].
  exact (newuser_writes_survive_failure (steady online answer_refused) true
           sample_world (Client.UserCreate sample_snapshot) rs Hin Hst).
Defined.

Lemma ProRequest_success_test_witness :
  In "signin" command_names /\
  (let env := steady online answer_garbled in
   let w := sample_world in
   let run := ProRequest env false "signin" theSession w in
   let evs := events_of w (snd run) in
   (forall e, GetHTTPClient env (now w) false = inr e ->
      fst run = Returned false /\
      remote_calls evs = [] /\ mutators evs = [] /\
      session (snd run) = session w) /\
   (forall h, GetHTTPClient env (now w) false = inl h ->
      exists rpc res err,
        remote_calls evs = [(rpc, (res, err))] /\
        (fst run = Returned true <-> err = None /\ status_ok res) /\
        (forall rs, res = Some rs -> fst run <> Returned true ->
           fst run = Returned false /\
           exists ms,
             mutators evs = ms ++ [SetError "signin" (client.Error rs)] /\
             session (snd run) =
               mutate (SetError "signin" (client.Error rs))
                      (apply_all ms (session w))) /\
        (res = None -> err <> None ->
           fst run = Returned false /\ mutators evs = [] /\
           session (snd run) = session w))).
Proof.
  assert (Hin : In "signin" command_names) by (simpl; tauto).
  split; [exact Hin |].
  exact (ProRequest_success_test (steady online answer_garbled) false
           "signin" sample_world Hin).
Defined.

Lemma redeemcode_writes_iff_ok_witness :
  let env := steady online answer_refused in
  let r := dispatch_request sample_world (client.httpClient 0) in
  let w := sample_world in
  r_session r = Some theSession /\
  (let run := redeemcode env r w in
   let evs := events_of w (snd run) in
   exists rpc res err,
     remote_calls evs = [(rpc, (res, err))] /\
     (existsb writes_token_or_id (mutators evs) = true
        <-> err = None /\ status_ok res) /\
     (forall rs, res = Some rs -> err = None -> client.Status rs = "ok" ->
        let u := client.Response_User rs in
        let writes := [ SetToken (client.Token (client.User_Auth u));
                        SetUserId (client.ID (client.User_Auth u)) ] in
        fst run = Returned (res, err) /\
        mutators evs = writes /\
        session (snd run) = apply_all writes (session w)) /\
     (forall rs, res = Some rs -> err = None -> client.Status rs <> "ok" ->
        fst run = Returned (res, err) /\
        mutators evs = [] /\
        session (snd run) = session w)).
Proof.
  intros env r w.
  assert (Hs : r_session r = Some theSession) by reflexivity.
  split; [exact Hs |].
  exact (redeemcode_writes_iff_ok env r w Hs).
Defined.

Lemma transport_error_frame_witness :
  let env := steady online answer_garbled in
  let w := sample_world in
  let rs := sample_response "" "truncated" [] in
  let rpc := Client.RedeemReferralCode sample_snapshot "REF" in
  let run := ProRequest env true "referral" theSession w in
  let evs := events_of w (snd run) in
  In "referral" command_names /\
  In (rpc, (Some rs, Some "unexpected end of JSON")) (remote_calls evs) /\
  fst run = Returned false /\
  mutators evs = [SetError "referral" (client.Error rs)] /\
  existsb writes_identity (mutators evs) = false /\
  session (snd run) = apply_all (mutators evs) (session w).
Proof.
  intros env w rs rpc run evs.
  assert (Hin : In "referral" command_names) by (simpl; tauto).
  assert (Hcall : In (rpc, (Some rs, Some "unexpected end of JSON"))
                     (remote_calls evs)) by (left; reflexivity).
  split; [exact Hin |]. split; [exact Hcall |].
  exact (transport_error_frame env true "referral" w rpc (Some rs)
           "unexpected end of JSON" Hin Hcall).
Defined.

Lemma plans_records_witness :
  let env := steady online answer_plans in
  let w := sample_world in
  let rs := sample_response "ok" ""
              [ plan_priced [("", 5%Z)];
                plan_priced [];
                plan_priced [("eur", 9%Z); ("usd", 10%Z)] ] in
  let rpc := Client.Plans sample_snapshot in
  let run := ProRequest env true "plans" theSession w in
  let evs := events_of w (snd run) in
  In (rpc, (Some rs, None)) (remote_calls evs) /\
  exists recs,
    Forall2 appended_for (client.Plans rs) recs /\
    mutators evs =
      match client.Plans rs with
      | [] => []
      | _ => SetStripePubKey (client.PubKey rs) :: concat recs
      end
      ++ (if client.Status rs =? "ok" then []
          else [SetError "plans" (client.Error rs)]) /\
    fst run = Returned (client.Status rs =? "ok") /\
    session (snd run) = apply_all (mutators evs) (session w).
Proof.
  intros env w rs rpc run evs.
  assert (Hcall : In (rpc, (Some rs, None)) (remote_calls evs))
    by (left; reflexivity).
  split; [exact Hcall |].
  exact (plans_records env true w rpc rs Hcall).
Defined.

Lemma userdata_devices_then_update_witness :
  let env := steady online answer_ok in
  let w := sample_world in
  let rs := sample_response "ok" "" [] in
  let rpc := Client.UserData sample_snapshot in
  let run := ProRequest env true "userdata" theSession w in
  let evs := events_of w (snd run) in
  let u := client.Response_User rs in
  In (rpc, (Some rs, None)) (remote_calls evs) /\
  mutators evs =
    map device_call (client.Devices u)
    ++ [bulk_update u]
    ++ (if client.Status rs =? "ok" then []
        else [SetError "userdata" (client.Error rs)]) /\
  length (filter is_AddDevice (mutators evs))
    = length (client.Devices u) /\
  length (filter is_UserData (mutators evs)) = 1 /\
  fst run = Returned (client.Status rs =? "ok") /\
  session (snd run) = apply_all (mutators evs) (session w).
Proof.
  intros env w rs rpc run evs u.
  assert (Hcall : In (rpc, (Some rs, None)) (remote_calls evs))
    by (left; reflexivity).
  split; [exact Hcall |].
  exact (userdata_devices_then_update env true w rpc rs Hcall).
Defined.

Lemma purchase_keys_distinct_witness :
  let env := steady online answer_ok in
  let es := [ CallProRequest true "purchase";
              CallProRequest true "plans";
              CallRemoveDevice false "d2";
              CallProRequest true "purchase" ] in
  let w := sample_world in
  (forall i j, NewIdempotencyKey env i = NewIdempotencyKey env j -> i = j) /\
  NoDup (purchase_keys (events_of w (snd (lifetime env es w)))) /\
  (forall shouldProxy v h,
     GetHTTPClient env (now v) shouldProxy = inl h ->
     purchase_keys
       (events_of v
          (snd (ProRequest env shouldProxy "purchase" theSession v)))
       = [NewIdempotencyKey env (Datatypes.S (now v))]).
Proof.
  intros env es w.
  assert (Hfresh : forall i j,
            NewIdempotencyKey env i = NewIdempotencyKey env j -> i = j)
    by exact strokes_injective.
  split; [exact Hfresh |].
  exact (purchase_keys_distinct env es w Hfresh).
Defined.

Lemma nil_response_with_error_is_safe_witness :
  let env := steady online answer_timeout in
  let w := sample_world in
  let h := client.httpClient 0 in
  let w1 := snd (cancel env (dispatch_request w h)
                   (connected w true (inl h))) in
  GetHTTPClient env (now w) true = inl h /\
  lookup (commands env) "cancel" = Some (cancel env) /\
  cancel env (dispatch_request w h) (connected w true (inl h))
    = (Returned (None, Some "timeout"), w1) /\
  ProRequest env true "cancel" theSession w = (Returned false, w1) /\
  mutators (events_of w w1) = [] /\
  session w1 = session w.
Proof.
  intros env w h w1.
  assert (Hc : GetHTTPClient env (now w) true = inl h) by reflexivity.
  assert (Hf : lookup (commands env) "cancel" = Some (cancel env))
    by reflexivity.
  assert (Hrun : cancel env (dispatch_request w h)
                   (connected w true (inl h))
                 = (Returned (None, Some "timeout"), w1)) by reflexivity.
  split; [exact Hc |]. split; [exact Hf |]. split; [exact Hrun |].
  exact (nil_response_with_error_is_safe env true "cancel" w h (cancel env)
           "timeout" w1 Hc Hf Hrun).
Defined.

(** * The list-plans claim as stated fails *)

(** It fails on a response without plans, where the Stripe public key is
    not written, and on a plan whose only price entry has the empty string
    as currency, for which no record is appended. *)
Lemma plans_claim_counterexample :
  ~ plans_claim (steady online answer_ok) true sample_world /\
  ~ plans_claim (steady online answer_unnamed_currency) true sample_world.
Proof.
  split; intros H.
  - destruct (H (Client.Plans sample_snapshot) (sample_response "ok" "" [])
                eq_refl (or_introl eq_refl)) as (recs & _ & Hm).
    vm_compute in Hm. discriminate.
  - destruct (H (Client.Plans sample_snapshot)
                (sample_response "ok" "" [plan_priced [("", 5%Z)]])
                eq_refl (or_introl eq_refl)) as (recs & Hrecs & Hm).
    inversion Hrecs as [|plan rec ps recs' Hrec Hrest]; subst.
    inversion Hrest; subst.
    inversion Hrec as [Hp | currency price Hin]; subst.
    + discriminate.
    + vm_compute in Hm. discriminate.
Qed.

(** * Instances of the further properties *)

Lemma dispatch_sends_snapshot_witness :
  let env := steady online answer_ok in
  let shouldProxy := true in
  let command := "newuser" in
  let w := sample_world in
  let h := client.httpClient 0 in
  (In command command_names) /\
  (GetHTTPClient env (now w) shouldProxy = inl h) /\
  (let evs :=
    events_of w (snd (ProRequest env shouldProxy command theSession w)) in
  exists c rpc res,
    remote_events evs = [(c, rpc, res)] /\
    client.http c = h /\
    client.locale c = Locale (session w) /\
    client.User_Auth (call_user rpc) = snapshot (session w)).
Proof.
  intros env shouldProxy command w h.
  assert (Hin : In command command_names) by (simpl; tauto).
  assert (Hc : GetHTTPClient env (now w) shouldProxy = inl h) by (reflexivity).
  split; [exact Hin |].
  split; [exact Hc |].
  exact (dispatch_sends_snapshot env shouldProxy command w h Hin Hc).
Defined.

Lemma dispatch_calls_own_method_witness :
  let env := steady online answer_ok in
  let shouldProxy := true in
  let command := "referral" in
  let w := sample_world in
  let h := client.httpClient 0 in
  (In command command_names) /\
  (GetHTTPClient env (now w) shouldProxy = inl h) /\
  (let evs :=
    events_of w (snd (ProRequest env shouldProxy command theSession w)) in
  exists c rpc res,
    remote_events evs = [(c, rpc, res)] /\
    In (command, call_method rpc) command_methods).
Proof.
  intros env shouldProxy command w h.
  assert (Hin : In command command_names) by (simpl; tauto).
  assert (Hc : GetHTTPClient env (now w) shouldProxy = inl h) by (reflexivity).
  split; [exact Hin |].
  split; [exact Hc |].
  exact (dispatch_calls_own_method env shouldProxy command w h Hin Hc).
Defined.

Lemma link_code_sent_witness :
  let env := steady online answer_ok in
  let shouldProxy := true in
  let command := "redeemcode" in
  let w := sample_world in
  let h := client.httpClient 0 in
  (In command command_names) /\
  (GetHTTPClient env (now w) shouldProxy = inl h) /\
  (let evs :=
    events_of w (snd (ProRequest env shouldProxy command theSession w)) in
  exists c rpc res,
    remote_events evs = [(c, rpc, res)] /\
    client.Code (call_user rpc) =
      (if command =? "signin" then VerifyCode (session w)
       else if command =? "redeemcode" then DeviceCode (session w)
       else "")).
Proof.
  intros env shouldProxy command w h.
  assert (Hin : In command command_names) by (simpl; tauto).
  assert (Hc : GetHTTPClient env (now w) shouldProxy = inl h) by (reflexivity).
  split; [exact Hin |].
  split; [exact Hc |].
  exact (link_code_sent env shouldProxy command w h Hin Hc).
Defined.

Lemma session_calls_follow_remote_call_witness :
  let env := steady online answer_ok in
  let shouldProxy := true in
  let command := "userdata" in
  let w := sample_world in
  let h := client.httpClient 0 in
  (In command command_names) /\
  (GetHTTPClient env (now w) shouldProxy = inl h) /\
  (let evs :=
    events_of w (snd (ProRequest env shouldProxy command theSession w)) in
  exists before c rpc res ms,
    evs = before ++ EvRemote c rpc res :: map EvSession ms /\
    mutators before = [] /\
    remote_calls before = []).
Proof.
  intros env shouldProxy command w h.
  assert (Hin : In command command_names) by (simpl; tauto).
  assert (Hc : GetHTTPClient env (now w) shouldProxy = inl h) by (reflexivity).
  split; [exact Hin |].
  split; [exact Hc |].
  exact (session_calls_follow_remote_call env shouldProxy command w h Hin Hc).
Defined.

Lemma ProRequest_faults_without_response_and_error_witness :
  let env := steady online answer_nothing in
  let shouldProxy := false in
  let command := "cancel" in
  let w := sample_world in
  let rpc := Client.CancelSubscription sample_snapshot in
  let run := ProRequest env shouldProxy command theSession w in
  let evs := events_of w (snd run) in
  (In command command_names) /\
  (In (rpc, (None, None)) (remote_calls evs)) /\
  (fst run = Panicked nil_dereference /\
  mutators evs = [] /\
  session (snd run) = session w).
Proof.
  intros env shouldProxy command w rpc run evs.
  assert (Hin : In command command_names) by (simpl; tauto).
  assert (Hcall : In (rpc, (None, None)) (remote_calls evs)) by (left; reflexivity).
  split; [exact Hin |].
  split; [exact Hcall |].
  exact (ProRequest_faults_without_response_and_error env shouldProxy command w rpc Hin Hcall).
Defined.

Lemma transport_failure_returns_false_witness :
  let env := steady offline answer_ok in
  let shouldProxy := true in
  let w := sample_world in
  let e := "no route to proxy" in
  (GetHTTPClient env (now w) shouldProxy = inr e) /\
  ((forall command,
     let run := ProRequest env shouldProxy command theSession w in
     fst run = Returned false /\
     events_of w (snd run) = [EvHTTPClient shouldProxy (inr e)] /\
     session (snd run) = session w) /\
  (forall deviceId,
     let run := RemoveDevice env shouldProxy deviceId theSession w in
     fst run = Returned false /\
     events_of w (snd run) = [EvHTTPClient shouldProxy (inr e)] /\
     session (snd run) = session w)).
Proof.
  intros env shouldProxy w e.
  assert (Hc : GetHTTPClient env (now w) shouldProxy = inr e) by (reflexivity).
  split; [exact Hc |].
  exact (transport_failure_returns_false env shouldProxy w e Hc).
Defined.

Lemma RemoveDevice_faults_on_nil_response_witness :
  let env := steady online answer_timeout in
  let shouldProxy := true in
  let deviceId := "d2" in
  let w := sample_world in
  let rpc := Client.UserLinkRemove sample_snapshot "d2" in
  let err := Some "timeout" in
  let run := RemoveDevice env shouldProxy deviceId theSession w in
  let evs := events_of w (snd run) in
  (In (rpc, (None, err)) (remote_calls evs)) /\
  (fst run = Panicked nil_dereference /\
  mutators evs = [] /\
  session (snd run) = session w).
Proof.
  intros env shouldProxy deviceId w rpc err run evs.
  assert (Hcall : In (rpc, (None, err)) (remote_calls evs)) by (left; reflexivity).
  split; [exact Hcall |].
  exact (RemoveDevice_faults_on_nil_response env shouldProxy deviceId w rpc err Hcall).
Defined.

Lemma RemoveDevice_remote_call_witness :
  let env := steady online answer_ok in
  let shouldProxy := true in
  let deviceId := "d2" in
  let w := sample_world in
  let h := client.httpClient 0 in
  (GetHTTPClient env (now w) shouldProxy = inl h) /\
  (let run := RemoveDevice env shouldProxy deviceId theSession w in
  let evs := events_of w (snd run) in
  exists res,
    remote_events evs
      = [(client.NewClient h,
          Client.UserLinkRemove (client.userOf (snapshot (session w)))
                                deviceId,
          res)] /\
    purchase_keys evs = [] /\
    (forall k, ~ In (EvKey k) evs)).
Proof.
  intros env shouldProxy deviceId w h.
  assert (Hc : GetHTTPClient env (now w) shouldProxy = inl h) by (reflexivity).
  split; [exact Hc |].
  exact (RemoveDevice_remote_call env shouldProxy deviceId w h Hc).
Defined.

Lemma success_leaves_error_slot_witness :
  let env := steady online answer_plans in
  let shouldProxy := true in
  let command := "plans" in
  let w := sample_world in
  let run := ProRequest env shouldProxy command theSession w in
  let evs := events_of w (snd run) in
  (In command command_names) /\
  (fst run = Returned true) /\
  (existsb is_SetError (mutators evs) = false).
Proof.
  intros env shouldProxy command w run evs.
  assert (Hin : In command command_names) by (simpl; tauto).
  assert (Hok : fst run = Returned true) by (reflexivity).
  split; [exact Hin |].
  split; [exact Hok |].
  exact (success_leaves_error_slot env shouldProxy command w Hin Hok).
Defined.

Lemma read_only_commands_frame_witness :
  let env := steady online answer_refused in
  let shouldProxy := true in
  let command := "purchase" in
  let w := sample_world in
  (In command read_only_commands) /\
  (let run := ProRequest env shouldProxy command theSession w in
  let evs := events_of w (snd run) in
  (mutators evs = [] \/
   exists message, mutators evs = [SetError command message]) /\
  (fst run = Returned true ->
   mutators evs = [] /\ session (snd run) = session w)).
Proof.
  intros env shouldProxy command w.
  assert (Hro : In command read_only_commands) by (simpl; tauto).
  split; [exact Hro |].
  exact (read_only_commands_frame env shouldProxy command w Hro).
Defined.

Lemma requestcode_writes_device_code_witness :
  let env := steady online answer_refused in
  let shouldProxy := true in
  let w := sample_world in
  let rpc := Client.RequestLinkCode sample_snapshot "phone" in
  let rs := sample_response "error" "card_declined" [] in
  let run := ProRequest env shouldProxy "requestcode" theSession w in
  let evs := events_of w (snd run) in
  let u := client.Response_User rs in
  (In (rpc, (Some rs, None)) (remote_calls evs)) /\
  (mutators evs =
    SetDeviceCode (client.Code u) (client.ExpireAt u)
      :: (if client.Status rs =? "ok" then []
          else [SetError "requestcode" (client.Error rs)]) /\
  fst run = Returned (client.Status rs =? "ok") /\
  session (snd run) = apply_all (mutators evs) (session w)).
Proof.
  intros env shouldProxy w rpc rs run evs u.
  assert (Hcall : In (rpc, (Some rs, None)) (remote_calls evs)) by (left; reflexivity).
  split; [exact Hcall |].
  exact (requestcode_writes_device_code env shouldProxy w rpc rs Hcall).
Defined.


Lemma keys_only_for_purchase_witness :
  let env := steady online answer_ok in
  let shouldProxy := true in
  let command := "purchase" in
  let w := sample_world in
  let k := "|" in
  let evs := events_of w (snd (ProRequest env shouldProxy command theSession w)) in
  (In (EvKey k) evs) /\
  (command = "purchase").
Proof.
  intros env shouldProxy command w k evs.
  assert (Hk : In (EvKey k) evs) by (right; left; reflexivity).
  split; [exact Hk |].
  exact (keys_only_for_purchase env shouldProxy command w k Hk).
Defined.

Lemma plans_records_come_from_response_witness :
  let env := steady online answer_plans in
  let shouldProxy := true in
  let w := sample_world in
  let rpc := Client.Plans sample_snapshot in
  let rs := sample_response "ok" ""
              [ plan_priced [("", 5%Z)];
                plan_priced [];
                plan_priced [("eur", 9%Z); ("usd", 10%Z)] ] in
  let run := ProRequest env shouldProxy "plans" theSession w in
  let evs := events_of w (snd run) in
  (In (rpc, (Some rs, None)) (remote_calls evs)) /\
  ((forall id d c b y p,
     In (AddPlan id d c b y p) (mutators evs) ->
     c <> "" /\
     exists plan,
       In plan (client.Plans rs) /\
       id = client.Plan_Id plan /\ d = client.Description plan /\
       b = client.BestValue plan /\
       y = client.Years (client.Duration plan) /\
       In (c, p) (client.Price plan)) /\
  length (filter is_AddPlan (mutators evs)) <= length (client.Plans rs) /\
  length (filter is_SetStripePubKey (mutators evs)) <= 1).
Proof.
  intros env shouldProxy w rpc rs run evs.
  assert (Hcall : In (rpc, (Some rs, None)) (remote_calls evs)) by (left; reflexivity).
  split; [exact Hcall |].
  exact (plans_records_come_from_response env shouldProxy w rpc rs Hcall).
Defined.

Lemma newuser_success_writes_identity_witness :
  let env := steady online answer_ok in
  let shouldProxy := true in
  let w := sample_world in
  let rpc := Client.UserCreate sample_snapshot in
  let rs := sample_response "ok" "" [] in
  let run := ProRequest env shouldProxy "newuser" theSession w in
  let evs := events_of w (snd run) in
  let u := client.Response_User rs in
  let writes := [ SetUserId (client.ID (client.User_Auth u));
      SetToken (client.Token (client.User_Auth u));
      SetCode (client.Referral u) ] in
  (In (rpc, (Some rs, None)) (remote_calls evs)) /\
  (client.Status rs = "ok") /\
  (fst run = Returned true /\
  mutators evs = writes /\
  session (snd run) = apply_all writes (session w)).
Proof.
  intros env shouldProxy w rpc rs run evs u writes.
  assert (Hcall : In (rpc, (Some rs, None)) (remote_calls evs)) by (left; reflexivity).
  assert (Hst : client.Status rs = "ok") by (reflexivity).
  split; [exact Hcall |].
  split; [exact Hst |].
  exact (newuser_success_writes_identity env shouldProxy w rpc rs Hcall Hst).
Defined.

Lemma new_identity_is_sent_next_witness :
  let env := steady online answer_ok in
  let w := sample_world in
  let p1 := true in
  let p2 := false in
  let command1 := "newuser" in
  let command2 := "cancel" in
  let rpc := Client.UserCreate sample_snapshot in
  let rs := sample_response "ok" "" [] in
  let h2 := client.httpClient 0 in
  let run1 := ProRequest env p1 command1 theSession w in
  (command1 = "newuser" \/ command1 = "redeemcode") /\
  (fst run1 = Returned true) /\
  (In (rpc, (Some rs, None)) (remote_calls (events_of w (snd run1)))) /\
  (In command2 command_names) /\
  (GetHTTPClient env (now (snd run1)) p2 = inl h2) /\
  (let evs2 :=
    events_of (snd run1)
      (snd (ProRequest env p2 command2 theSession (snd run1))) in
  exists c rpc2 res2,
    remote_events evs2 = [(c, rpc2, res2)] /\
    client.User_Auth (call_user rpc2) =
      {| client.DeviceID := DeviceId (session w);
         client.ID := client.ID (client.User_Auth (client.Response_User rs));
         client.Token :=
           client.Token (client.User_Auth (client.Response_User rs)) |}).
Proof.
  intros env w p1 p2 command1 command2 rpc rs h2 run1.
  assert (Hcmd : command1 = "newuser" \/ command1 = "redeemcode") by (left; reflexivity).
  assert (Hok : fst run1 = Returned true) by (reflexivity).
  assert (Hcall : In (rpc, (Some rs, None)) (remote_calls (events_of w (snd run1)))) by (left; reflexivity).
  assert (Hin2 : In command2 command_names) by (simpl; tauto).
  assert (Hc2 : GetHTTPClient env (now (snd run1)) p2 = inl h2) by (reflexivity).
  split; [exact Hcmd |].
  split; [exact Hok |].
  split; [exact Hcall |].
  split; [exact Hin2 |].
  split; [exact Hc2 |].
  exact (new_identity_is_sent_next env w p1 p2 command1 command2 rpc rs h2 Hcmd Hok Hcall Hin2 Hc2).
Defined.
